(** * A shallow embedding of the Dify streaming chat adapter (llm.py)

    The adapter has two classes.  [LLM] builds the outbound request
    ([LLM.chat]) and [LLMStream] translates the server-sent event lines of
    the response into chat chunks ([LLMStream._run] and
    [LLMStream._parse_event]).

    Python values that come out of [json.loads] are modelled by the type
    [json]; the few dynamic operations the adapter applies to them
    ([.get], [in], subscripting, truth value, [+]) are given their Python
    meaning, including the exception each one raises on a value of the
    wrong type.  Methods are functions in a state-and-exception monad over
    the object they mutate. *)

From Stdlib Require Import ZArith List String Ascii Bool Lia.
From Stdlib Require Import Floats.SpecFloat.
From Stdlib Require Import Strings.Byte.
Import ListNotations.

Local Open Scope string_scope.
Local Open Scope list_scope.

(** ** Python values *)

(** The result of [json.loads]: [None], [bool], [int], [float], [str],
    [list] and [dict] with [str] keys.  A [str] is a [string]; a text that
    is not ASCII is held as its UTF-8 bytes.  A [float] is an IEEE 754
    binary64 number.  A [dict] is the list of its items; [assoc] reads the
    first item of a key. *)
#[local] Set Warnings "-register-all".
Inductive json : Type :=
| JNull
| JBool (b : bool)
| JInt (n : Z)
| JFloat (x : spec_float)
| JStr (s : string)
| JList (items : list json)
| JDict (entries : list (string * json)).

(** The exceptions the adapter can meet or raise.  All of them are
    subclasses of [Exception]. *)
Inductive exn : Type :=
| ValueError (msg : string)
| TypeError
| AttributeError
| KeyError
| OverflowError
| UnicodeDecodeError
| JSONDecodeError
| ClientError
| TimeoutError
| APIStatusError (message : string) (status_code : Z) (body : string)
| APIConnectionError (retryable : bool) (cause : exn).

Inductive result (A : Type) : Type :=
| Ok (a : A)
| Raise (e : exn).
Arguments Ok {A} a.
Arguments Raise {A} e.

Fixpoint assoc (k : string) (d : list (string * json)) : option json :=
  match d with
  | [] => None
  | (k', v) :: d' => if String.eqb k' k then Some v else assoc k d'
  end.

(** [d[k] = v] on a dict: the item of [k] is replaced where it is, a new
    key goes last. *)
Fixpoint dict_set (k : string) (v : json) (d : list (string * json))
  : list (string * json) :=
  match d with
  | [] => [(k, v)]
  | (k', v') :: d' =>
      if String.eqb k' k then (k', v) :: d' else (k', v') :: dict_set k v d'
  end.

(** [sub in s] on two strs. *)
Fixpoint is_substring (sub s : string) : bool :=
  String.prefix sub s
  || match s with
     | EmptyString => false
     | String _ s' => is_substring sub s'
     end.

(** [x == k] for a str [k]. *)
Definition py_eq_str (x : json) (k : string) : bool :=
  match x with
  | JStr s => String.eqb s k
  | _ => false
  end.

(** [obj.get(k, default)]: only a dict has the method. *)
Definition py_get (obj : json) (k : string) (default : json) : result json :=
  match obj with
  | JDict d =>
      Ok (match assoc k d with Some v => v | None => default end)
  | _ => Raise AttributeError
  end.

(** [k in c] for a str [k]: key of a dict, element of a list, substring of
    a str; the other values are not containers. *)
Definition py_contains (k : string) (c : json) : result bool :=
  match c with
  | JDict d => Ok (match assoc k d with Some _ => true | None => false end)
  | JList l => Ok (existsb (fun x => py_eq_str x k) l)
  | JStr s => Ok (is_substring k s)
  | _ => Raise TypeError
  end.

(** [c[k]] for a str [k]: a list and a str take integer indices only. *)
Definition py_getitem (c : json) (k : string) : result json :=
  match c with
  | JDict d =>
      match assoc k d with Some v => Ok v | None => Raise KeyError end
  | _ => Raise TypeError
  end.

(** The truth value of a value, as [not v] tests it. *)
Definition py_truthy (v : json) : bool :=
  match v with
  | JNull => false
  | JBool b => b
  | JInt n => negb (Z.eqb n 0)
  | JFloat (S754_zero _) => false
  | JFloat _ => true
  | JStr s => negb (String.eqb s "")
  | JList l => match l with [] => false | _ => true end
  | JDict d => match d with [] => false | _ => true end
  end.

(** [float(n)] for an int: round to nearest even, [OverflowError] beyond
    the range of binary64. *)
Definition float_of_int (n : Z) : result spec_float :=
  match binary_normalize 53 1024 n 0 false with
  | S754_infinity _ => Raise OverflowError
  | x => Ok x
  end.

Definition int_of_bool (b : bool) : Z := if b then 1%Z else 0%Z.

(** The numeric tower of [+]: a bool counts as an int. *)
Inductive number : Type :=
| NInt (n : Z)
| NFloat (x : spec_float).

Definition as_number (v : json) : option number :=
  match v with
  | JBool b => Some (NInt (int_of_bool b))
  | JInt n => Some (NInt n)
  | JFloat x => Some (NFloat x)
  | _ => None
  end.

Definition number_add (a b : number) : result json :=
  match a, b with
  | NInt x, NInt y => Ok (JInt (x + y))
  | NFloat x, NFloat y => Ok (JFloat (SFadd 53 1024 x y))
  | NInt x, NFloat y =>
      match float_of_int x with
      | Ok x' => Ok (JFloat (SFadd 53 1024 x' y))
      | Raise e => Raise e
      end
  | NFloat x, NInt y =>
      match float_of_int y with
      | Ok y' => Ok (JFloat (SFadd 53 1024 x y'))
      | Raise e => Raise e
      end
  end.

(** [a + b]: numbers add, two strs and two lists concatenate, everything
    else is a [TypeError]. *)
Definition py_add (a b : json) : result json :=
  match as_number a, as_number b with
  | Some x, Some y => number_add x y
  | _, _ =>
      match a, b with
      | JStr s, JStr t => Ok (JStr (s ++ t)%string)
      | JList l, JList m => Ok (JList (l ++ m))
      | _, _ => Raise TypeError
      end
  end.

(** ** The state-and-exception monad

    A method of an object of type [S] is a function from the object to the
    object as the call leaves it, and the value returned or the exception
    raised.  A mutation done before an exception is kept. *)
Definition M (S A : Type) : Type := S -> S * result A.

Definition ret {S A} (a : A) : M S A := fun s => (s, Ok a).

Definition raise {S A} (e : exn) : M S A := fun s => (s, Raise e).

Definition bind {S A B} (m : M S A) (k : A -> M S B) : M S B :=
  fun s =>
    match m s with
    | (s', Ok a) => k a s'
    | (s', Raise e) => (s', Raise e)
    end.

Definition lift {S A} (r : result A) : M S A := fun s => (s, r).

Definition gets {S A} (f : S -> A) : M S A := fun s => (s, Ok (f s)).

Definition modify {S} (f : S -> S) : M S unit := fun s => (f s, Ok tt).

(** [try: body  except Exception as e: handler e]. *)
Definition try_except {S A} (body : M S A) (handler : exn -> M S A) : M S A :=
  fun s =>
    match body s with
    | (s', Ok a) => (s', Ok a)
    | (s', Raise e) => handler e s'
    end.

Declare Scope py_scope.
Delimit Scope py_scope with py.
Notation "x <- m ;; k" := (bind m (fun x => k))
  (at level 100, m at next level, right associativity) : py_scope.
Notation "m ;; k" := (bind m (fun _ => k))
  (at level 100, right associativity) : py_scope.

Local Open Scope py_scope.

(** ** The chunk protocol of the agent runtime

    [llm.ChatChunk], [llm.Choice], [llm.ChoiceDelta] and
    [llm.CompletionUsage] are plain data classes: a field holds whatever
    value the adapter stores in it. *)
Record ChoiceDelta : Type := {
  role : string;
  content : json
}.

Record Choice : Type := {
  delta : ChoiceDelta
}.

Record CompletionUsage : Type := {
  completion_tokens : json;
  prompt_tokens : json;
  total_tokens : json
}.

Record ChatChunk : Type := {
  request_id : json;
  choices : list Choice;
  usage : option CompletionUsage
}.

(** ** The HTTP response

    What the stream reads of an [aiohttp.ClientResponse]: the status, the
    outcome of [await response.text()], the lines [response.content] yields
    and how the iteration ends, at the end of the body or with an exception
    of the transport. *)
Inductive body_end : Type :=
| EndOfBody
| ReadError (e : exn).

Record ClientResponse : Type := {
  status : Z;
  text : result string;
  content_lines : list (list byte);
  content_end : body_end
}.

(** ** LLMStream *)

(** The attributes of [LLMStream.__init__], the event channel of the base
    class ([_event_ch], the chunks sent so far, oldest first; sending never
    blocks and never fails) and the messages given to [logger.error]. *)
Record LLMStream : Type := {
  _awaitable_dify_stream : result ClientResponse;
  _dify_stream : option ClientResponse;
  _request_id : string;
  _input_tokens : json;
  _output_tokens : json;
  _event_ch : list ChatChunk;
  logged : list exn
}.

(** [LLMStream.__init__]: [dify_stream] is the request [LLM.chat] posted,
    given here by what awaiting it yields. *)
Definition LLMStream__init__ (dify_stream : result ClientResponse) : LLMStream :=
  {| _awaitable_dify_stream := dify_stream;
     _dify_stream := None;
     _request_id := "";
     _input_tokens := JInt 0;
     _output_tokens := JInt 0;
     _event_ch := [];
     logged := [] |}.

Definition set_dify_stream (r : ClientResponse) (self : LLMStream) : LLMStream :=
  {| _awaitable_dify_stream := _awaitable_dify_stream self;
     _dify_stream := Some r;
     _request_id := _request_id self;
     _input_tokens := _input_tokens self;
     _output_tokens := _output_tokens self;
     _event_ch := _event_ch self;
     logged := logged self |}.

Definition set_input_tokens (v : json) (self : LLMStream) : LLMStream :=
  {| _awaitable_dify_stream := _awaitable_dify_stream self;
     _dify_stream := _dify_stream self;
     _request_id := _request_id self;
     _input_tokens := v;
     _output_tokens := _output_tokens self;
     _event_ch := _event_ch self;
     logged := logged self |}.

Definition set_output_tokens (v : json) (self : LLMStream) : LLMStream :=
  {| _awaitable_dify_stream := _awaitable_dify_stream self;
     _dify_stream := _dify_stream self;
     _request_id := _request_id self;
     _input_tokens := _input_tokens self;
     _output_tokens := v;
     _event_ch := _event_ch self;
     logged := logged self |}.

(** [self._event_ch.send_nowait(chunk)]. *)
Definition send_nowait (chunk : ChatChunk) (self : LLMStream) : LLMStream :=
  {| _awaitable_dify_stream := _awaitable_dify_stream self;
     _dify_stream := _dify_stream self;
     _request_id := _request_id self;
     _input_tokens := _input_tokens self;
     _output_tokens := _output_tokens self;
     _event_ch := _event_ch self ++ [chunk];
     logged := logged self |}.

(** [logger.error(f"Error processing stream: {e}")]. *)
Definition logger_error (e : exn) (self : LLMStream) : LLMStream :=
  {| _awaitable_dify_stream := _awaitable_dify_stream self;
     _dify_stream := _dify_stream self;
     _request_id := _request_id self;
     _input_tokens := _input_tokens self;
     _output_tokens := _output_tokens self;
     _event_ch := _event_ch self;
     logged := logged self ++ [e] |}.

(** [LLMStream._parse_event]. *)
Definition _parse_event (event : json) : M LLMStream (option ChatChunk) :=
  event_type <- lift (py_get event "event" JNull) ;;
  if py_eq_str event_type "message_end" then
    has_metadata <- lift (py_contains "metadata" event) ;;
    has_usage <-
      (if has_metadata : bool then
         metadata <- lift (py_getitem event "metadata") ;;
         lift (py_contains "usage" metadata)
       else ret false) ;;
    (if has_usage : bool then
       metadata <- lift (py_getitem event "metadata") ;;
       usage <- lift (py_getitem metadata "usage") ;;
       p <- lift (py_get usage "prompt_tokens" (JInt 0)) ;;
       modify (set_input_tokens p) ;;
       c <- lift (py_get usage "completion_tokens" (JInt 0)) ;;
       modify (set_output_tokens c)
     else ret tt) ;;
    ret None
  else if py_eq_str event_type "agent_message" then
    answer <- lift (py_get event "answer" (JStr "")) ;;
    if negb (py_truthy answer) then ret None
    else
      message_id <- lift (py_get event "message_id" (JStr "")) ;;
      ret (Some {| request_id := message_id;
                   choices :=
                     [ {| delta := {| content := answer;
                                      role := "assistant" |} |} ];
                   usage := None |})
  else ret None.

(** ** The Python runtime

    The three library calls on the path of a line, taken as they are:
    [bytes.decode('utf-8')], [str.strip()] and [json.loads], each with the
    exception it may raise.  Every theorem on the stream holds for every
    behaviour of them. *)
Class PyRuntime : Type := {
  bytes_decode : list byte -> result string;
  str_strip : string -> string;
  json_loads : string -> result json
}.

(** [s[n:]]. *)
Fixpoint str_from (n : nat) (s : string) : string :=
  match n, s with
  | O, _ => s
  | S _, EmptyString => EmptyString
  | S n', String _ s' => str_from n' s'
  end.

(** The frame of a call of [_run]: the stream and the local [retryable]. *)
Record Frame : Type := {
  self : LLMStream;
  retryable : bool
}.

Definition on_self {A} (m : M LLMStream A) : M Frame A :=
  fun fr =>
    let (s', r) := m (self fr) in
    ({| self := s'; retryable := retryable fr |}, r).

Definition set_retryable (b : bool) : M Frame unit :=
  modify (fun fr => {| self := self fr; retryable := b |}).

(** Unfolds the operations of the monad in a goal. *)
Ltac run_monad :=
  unfold bind, lift, ret, raise, gets, modify, try_except, on_self,
    set_retryable; simpl.

Definition is_client_error (e : exn) : bool :=
  match e with
  | ClientError => true
  | _ => false
  end.

Section Stream.

Context {rt : PyRuntime}.

(** The body of [async for line in response.content]. *)
Definition process_line (line : list byte) : M Frame unit :=
  match line with
  | [] => ret tt
  | _ :: _ =>
      try_except
        (line <- lift (bytes_decode line) ;;
         let line := str_strip line in
         if String.prefix "data: " line then
           data <- lift (json_loads (str_from 6 line)) ;;
           chat_chunk <- on_self (_parse_event data) ;;
           match chat_chunk with
           | Some chunk =>
               on_self (modify (send_nowait chunk)) ;;
               set_retryable false
           | None => ret tt
           end
         else ret tt)
        (fun e => on_self (modify (logger_error e)))
  end.

Fixpoint iterate_content (lines : list (list byte)) : M Frame unit :=
  match lines with
  | [] => ret tt
  | line :: rest => process_line line ;; iterate_content rest
  end.

(** The final chunk of [_run], built from the stream as the loop left it. *)
Definition final_chunk (s : LLMStream) (total : json) : ChatChunk :=
  {| request_id := JStr (_request_id s);
     choices := [];
     usage := Some {| completion_tokens := _output_tokens s;
                      prompt_tokens := _input_tokens s;
                      total_tokens := total |} |}.

(** [LLMStream._run], on its frame.  The response is read from its first
    line. *)
Definition _run_frame : M Frame unit :=
  set_retryable true ;;
  try_except
    (dify_stream <- gets (fun fr => _dify_stream (self fr)) ;;
     response <-
       match dify_stream with
       | None =>
           awaitable <- gets (fun fr => _awaitable_dify_stream (self fr)) ;;
           r <- lift awaitable ;;
           on_self (modify (set_dify_stream r)) ;;
           ret r
       | Some r => ret r
       end ;;
     (if negb (Z.eqb (status response) 200) then
        error_text <- lift (text response) ;;
        raise (APIStatusError ("Dify API error: " ++ error_text)%string
                              (status response) error_text)
      else ret tt) ;;
     iterate_content (content_lines response) ;;
     match content_end response with
     | ReadError e => raise e
     | EndOfBody =>
         s <- gets self ;;
         total <- lift (py_add (_input_tokens s) (_output_tokens s)) ;;
         on_self (modify (send_nowait (final_chunk s total)))
     end)
    (fun e =>
       r <- gets retryable ;;
       if is_client_error e
       then raise (APIConnectionError r e)
       else raise (APIConnectionError r e)).

(** [LLMStream._run]: the stream after the call and how the call ends. *)
Definition _run (s : LLMStream) : LLMStream * result unit :=
  let (fr, r) := _run_frame {| self := s; retryable := true |} in
  (self fr, r).

End Stream.

(** ** LLM *)

Module LLMOptions.
Record t : Type := {
  api_key : string;
  api_base : string;
  temperature : option spec_float;
  conversation_id : option string
}.
End LLMOptions.

(** A message of [llm.ChatContext]. *)
Record ChatMessage : Type := {
  msg_role : string;
  msg_content : json
}.

(** The arguments of [session.post]. *)
Record HttpRequest : Type := {
  url : string;
  headers : list (string * string);
  json_body : json
}.

(** An [aiohttp.ClientSession], named by the order of its creation. *)
Definition ClientSession : Type := nat.

Record LLM : Type := {
  _opts : LLMOptions.t;
  _session : option ClientSession
}.

(** The adapter and what it has done to the network so far: the number of
    sessions created and the requests posted, oldest first, each with its
    session. *)
Record Client : Type := {
  this : LLM;
  sessions_created : nat;
  posted : list (ClientSession * HttpRequest)
}.

(** [a or b] on an optional str: [None] and the empty str are false. *)
Definition str_or (a : option string) (b : option string) : option string :=
  match a with
  | Some s => if String.eqb s "" then b else Some s
  | None => b
  end.

(** [LLM.__init__], with the value of the environment variable
    [DIFY_API_KEY]. *)
Definition LLM__init__ (environ_DIFY_API_KEY : option string)
    (api_key api_base : option string) (temperature : option spec_float)
    (conversation_id : option string) : result LLM :=
  match str_or api_key environ_DIFY_API_KEY with
  | None => Raise (ValueError "Dify API key is required")
  | Some api_key =>
      Ok {| _opts :=
              {| LLMOptions.api_key := api_key;
                 LLMOptions.api_base :=
                   match str_or api_base (Some "https://api.dify.ai") with
                   | Some b => b
                   | None => ""
                   end;
                 LLMOptions.temperature := temperature;
                 LLMOptions.conversation_id := conversation_id |};
            _session := None |}
  end.

(** [aiohttp.ClientSession()], stored in [self._session]. *)
Definition new_session : M Client ClientSession :=
  fun c =>
    let id := sessions_created c in
    ({| this := {| _opts := _opts (this c); _session := Some id |};
        sessions_created := S id;
        posted := posted c |}, Ok id).

(** [session.post(url, headers=..., json=...)]. *)
Definition post (session : ClientSession) (req : HttpRequest) : M Client unit :=
  modify (fun c =>
    {| this := this c;
       sessions_created := sessions_created c;
       posted := posted c ++ [(session, req)] |}).

Section Chat.

(** What awaiting a posted request yields: the response, or the exception
    of the transport. *)
Variable http : HttpRequest -> result ClientResponse.

(** The payload of [LLM.chat] for a user message and a resolved
    temperature. *)
Definition payload_of (last_message : ChatMessage)
    (conversation_id : option string) (temperature : option spec_float)
  : list (string * json) :=
  let payload :=
    [ ("inputs", JDict []);
      ("query", msg_content last_message);
      ("response_mode", JStr "streaming");
      ("conversation_id",
        JStr (match str_or conversation_id (Some "") with
              | Some c => c
              | None => ""
              end));
      ("user", JStr "user") ] in
  match temperature with
  | Some t => dict_set "temperature" (JFloat t) payload
  | None => payload
  end.

(** [LLM.chat]. *)
Definition chat (chat_ctx : list ChatMessage) (temperature : option spec_float)
  : M Client LLMStream :=
  opts <- gets (fun c => _opts (this c)) ;;
  let temperature :=
    match temperature with
    | None => LLMOptions.temperature opts
    | Some _ => temperature
    end in
  let last_message :=
    find (fun msg => String.eqb (msg_role msg) "user") (rev chat_ctx) in
  match last_message with
  | None => raise (ValueError "No user message found in chat context")
  | Some last_message =>
      let payload :=
        payload_of last_message (LLMOptions.conversation_id opts) temperature in
      let headers :=
        [ ("Authorization", ("Bearer " ++ LLMOptions.api_key opts)%string);
          ("Content-Type", "application/json") ] in
      session <- gets (fun c => _session (this c)) ;;
      session <-
        match session with
        | None => new_session
        | Some s => ret s
        end ;;
      let req :=
        {| url := (LLMOptions.api_base opts ++ "/v1/chat-messages")%string;
           headers := headers;
           json_body := JDict payload |} in
      post session req ;;
      ret (LLMStream__init__ (http req))
  end.

End Chat.

(** The request [LLM.chat] posts for the user message [m]. *)
Definition request_for (opts : LLMOptions.t) (m : ChatMessage)
    (temperature : option spec_float) : HttpRequest :=
  {| url := (LLMOptions.api_base opts ++ "/v1/chat-messages")%string;
     headers :=
       [ ("Authorization", ("Bearer " ++ LLMOptions.api_key opts)%string);
         ("Content-Type", "application/json") ];
     json_body :=
       JDict (payload_of m (LLMOptions.conversation_id opts)
                (match temperature with
                 | None => LLMOptions.temperature opts
                 | Some _ => temperature
                 end)) |}.

(** ** The library calls, as CPython computes them

    The three operations of [PyRuntime] for the reference interpreter, used
    to run the adapter on concrete lines.  A str is held as its UTF-8
    bytes (a lone surrogate that a [\u] escape of JSON can produce is
    held as three bytes in the same way).  The interpreter's own limits,
    on the depth of nesting and on the number of digits of an int, are
    left out: beyond them [json.loads] raises, and the line is one more
    line that fails. *)
Module CPython.

Local Open Scope N_scope.

Definition code (c : ascii) : N := N_of_ascii c.

Definition byte_in (lo hi : N) (b : byte) : bool :=
  (lo <=? Byte.to_N b) && (Byte.to_N b <=? hi).

Definition continuation : byte -> bool := byte_in 128 191.

(** Well-formed UTF-8: no overlong form, no surrogate, nothing above
    U+10FFFF. *)
Fixpoint utf8_valid (bs : list byte) : bool :=
  match bs with
  | [] => true
  | b0 :: t0 =>
      if byte_in 0 127 b0 then utf8_valid t0
      else
        match t0 with
        | [] => false
        | b1 :: t1 =>
            if byte_in 194 223 b0 then continuation b1 && utf8_valid t1
            else
              match t1 with
              | [] => false
              | b2 :: t2 =>
                  if byte_in 224 239 b0 then
                    (if byte_in 224 224 b0 then byte_in 160 191 b1
                     else if byte_in 237 237 b0 then byte_in 128 159 b1
                     else continuation b1)
                    && continuation b2 && utf8_valid t2
                  else
                    match t2 with
                    | [] => false
                    | b3 :: t3 =>
                        if byte_in 240 244 b0 then
                          (if byte_in 240 240 b0 then byte_in 144 191 b1
                           else if byte_in 244 244 b0 then byte_in 128 143 b1
                           else continuation b1)
                          && continuation b2 && continuation b3
                          && utf8_valid t3
                        else false
                    end
              end
        end
  end.

(** [bytes.decode('utf-8')]. *)
Definition decode (bs : list byte) : result string :=
  if utf8_valid bs then Ok (string_of_list_byte bs)
  else Raise UnicodeDecodeError.

Definition str_of_codes (l : list N) : string :=
  fold_right (fun n s => String (ascii_of_N n) s) EmptyString l.

(** The characters [str.isspace] accepts, in UTF-8: U+0009 to U+000D,
    U+001C to U+0020, U+0085, U+00A0, U+1680, U+2000 to U+200A, U+2028,
    U+2029, U+202F, U+205F and U+3000. *)
Definition whitespace : list string :=
  map str_of_codes
    [ [9]; [10]; [11]; [12]; [13]; [28]; [29]; [30]; [31]; [32];
      [194; 133]; [194; 160]; [225; 154; 128];
      [226; 128; 128]; [226; 128; 129]; [226; 128; 130]; [226; 128; 131];
      [226; 128; 132]; [226; 128; 133]; [226; 128; 134]; [226; 128; 135];
      [226; 128; 136]; [226; 128; 137]; [226; 128; 138];
      [226; 128; 168]; [226; 128; 169]; [226; 128; 175];
      [226; 129; 159]; [227; 128; 128] ].

(** The rest of [s] after the prefix [p]. *)
Fixpoint after_prefix (p s : string) : option string :=
  match p, s with
  | EmptyString, _ => Some s
  | String a p', String b s' =>
      if Ascii.eqb a b then after_prefix p' s' else None
  | String _ _, EmptyString => None
  end.

Fixpoint after_any (tokens : list string) (s : string) : option string :=
  match tokens with
  | [] => None
  | t :: ts =>
      match after_prefix t s with
      | Some r => Some r
      | None => after_any ts s
      end
  end.

Fixpoint lstrip (fuel : nat) (tokens : list string) (s : string) : string :=
  match fuel with
  | O => s
  | S fuel' =>
      match after_any tokens s with
      | Some r => lstrip fuel' tokens r
      | None => s
      end
  end.

Fixpoint str_rev_onto (s acc : string) : string :=
  match s with
  | EmptyString => acc
  | String c s' => str_rev_onto s' (String c acc)
  end.

Definition str_rev (s : string) : string := str_rev_onto s EmptyString.

(** [str.strip()]. *)
Definition strip (s : string) : string :=
  let s := lstrip (String.length s) whitespace s in
  str_rev (lstrip (String.length s) (map str_rev whitespace) (str_rev s)).

(** *** [json.loads] *)

Definition is_json_ws (c : ascii) : bool :=
  (code c =? 32) || (code c =? 9) || (code c =? 10) || (code c =? 13).

Fixpoint skip_ws (s : string) : string :=
  match s with
  | String c r => if is_json_ws c then skip_ws r else s
  | EmptyString => s
  end.

Definition is_digit (c : ascii) : bool := (48 <=? code c) && (code c <=? 57).

(** The digits at the head of [s]: their number, their value, the rest. *)
Fixpoint take_digits (s : string) (count : nat) (value : Z) : nat * Z * string :=
  match s with
  | String c r =>
      if is_digit c
      then take_digits r (S count) (10 * value + Z.of_N (code c - 48))%Z
      else (count, value, s)
  | EmptyString => (count, value, s)
  end.

Definition signed (neg : bool) (z : Z) : Z := if neg then Z.opp z else z.

(** The binary64 number nearest to [m * 10 ^ e10], ties to even, as
    [float] reads a decimal literal. *)
Definition float_of_decimal (neg : bool) (m e10 : Z) : spec_float :=
  if (m =? 0)%Z then S754_zero neg
  else if (0 <=? e10)%Z then
    binary_normalize 53 1024 (signed neg (m * 10 ^ e10)%Z) 0 false
  else
    let d := (10 ^ (- e10))%Z in
    let s := Z.max 0 (Z.log2 d + 64 - Z.log2 m)%Z in
    let n := (m * 2 ^ s)%Z in
    let q := (n / d)%Z in
    let sticky := if (n mod d =? 0)%Z then 0%Z else 1%Z in
    binary_normalize 53 1024 (signed neg (2 * q + sticky)%Z) (- (s + 1))%Z false.

(** A number: an optional minus sign, then a zero or a digit string that
    does not start with a zero, then an optional fraction (a point and at
    least one digit), then an optional exponent (e or E, an optional sign
    and at least one digit).  It is an int when it has neither fraction nor
    exponent. *)
Definition parse_number (s : string) : option (json * string) :=
  let (neg, s1) :=
    match s with
    | String c r => if code c =? 45 then (true, r) else (false, s)
    | EmptyString => (false, s)
    end in
  let int_part :=
    match s1 with
    | String c r =>
        if code c =? 48 then Some (0%Z, r)
        else if is_digit c then
          let '(_, v, r') := take_digits s1 O 0%Z in Some (v, r')
        else None
    | EmptyString => None
    end in
  match int_part with
  | None => None
  | Some (i, s2) =>
      let '(frac_count, m, s3) :=
        match s2 with
        | String c r =>
            if code c =? 46 then
              let '(k, v, r') := take_digits r O i in
              match k with
              | O => (O, i, s2)
              | S _ => (k, v, r')
              end
            else (O, i, s2)
        | EmptyString => (O, i, s2)
        end in
      let '(has_exp, e, s4) :=
        match s3 with
        | String c r =>
            if (code c =? 101) || (code c =? 69) then
              let (eneg, r1) :=
                match r with
                | String c1 r' =>
                    if code c1 =? 45 then (true, r')
                    else if code c1 =? 43 then (false, r')
                    else (false, r)
                | EmptyString => (false, r)
                end in
              let '(k, v, r2) := take_digits r1 O 0%Z in
              match k with
              | O => (false, 0%Z, s3)
              | S _ => (true, signed eneg v, r2)
              end
            else (false, 0%Z, s3)
        | EmptyString => (false, 0%Z, s3)
        end in
      match frac_count, has_exp with
      | O, false => Some (JInt (signed neg i), s4)
      | _, _ =>
          Some (JFloat (float_of_decimal neg m (e - Z.of_nat frac_count)), s4)
      end
  end.

Definition hex_value (c : ascii) : option N :=
  let n := code c in
  if (48 <=? n) && (n <=? 57) then Some (n - 48)
  else if (97 <=? n) && (n <=? 102) then Some (n - 87)
  else if (65 <=? n) && (n <=? 70) then Some (n - 55)
  else None.

(** Four hexadecimal digits. *)
Definition hex4 (s : string) : option (N * string) :=
  match s with
  | String a (String b (String c (String d r))) =>
      match hex_value a, hex_value b, hex_value c, hex_value d with
      | Some x, Some y, Some z, Some w =>
          Some (4096 * x + 256 * y + 16 * z + w, r)
      | _, _, _, _ => None
      end
  | _ => None
  end.

Definition utf8_encode (u : N) : string :=
  if u <? 128 then str_of_codes [u]
  else if u <? 2048 then str_of_codes [192 + u / 64; 128 + u mod 64]
  else if u <? 65536 then
    str_of_codes [224 + u / 4096; 128 + (u / 64) mod 64; 128 + u mod 64]
  else
    str_of_codes [240 + u / 262144; 128 + (u / 4096) mod 64;
                  128 + (u / 64) mod 64; 128 + u mod 64].

(** The character of a two-character escape. *)
Definition simple_escape (c : ascii) : option N :=
  let n := code c in
  if n =? 34 then Some 34
  else if n =? 92 then Some 92
  else if n =? 47 then Some 47
  else if n =? 98 then Some 8
  else if n =? 102 then Some 12
  else if n =? 110 then Some 10
  else if n =? 114 then Some 13
  else if n =? 116 then Some 9
  else None.

(** After [\uXXXX] gave the high surrogate [u]: a following low surrogate
    escape joins it; a following escape that is not hexadecimal is an
    error; anything else leaves [u] alone. *)
Definition after_high_surrogate (u : N) (r : string)
  : option (N * string) :=
  match r with
  | String b (String c r') =>
      if (code b =? 92) && (code c =? 117) then
        match hex4 r' with
        | None => None
        | Some (u2, r'') =>
            if (56320 <=? u2) && (u2 <? 57344)
            then Some (65536 + (u - 55296) * 1024 + (u2 - 56320), r'')
            else Some (u, r)
        end
      else Some (u, r)
  | _ => Some (u, r)
  end.

(** The str after an opening quote, and what follows the closing one. *)
Fixpoint scanstring (fuel : nat) (s : string) : option (string * string) :=
  match fuel with
  | O => None
  | S fuel' =>
      match s with
      | EmptyString => None
      | String c r =>
          if code c =? 34 then Some (EmptyString, r)
          else if code c =? 92 then
            match r with
            | EmptyString => None
            | String e r1 =>
                let escaped :=
                  if code e =? 117 then
                    match hex4 r1 with
                    | None => None
                    | Some (u, r2) =>
                        if (55296 <=? u) && (u <? 56320)
                        then after_high_surrogate u r2
                        else Some (u, r2)
                    end
                  else
                    match simple_escape e with
                    | Some n => Some (n, r1)
                    | None => None
                    end in
                match escaped with
                | None => None
                | Some (u, r2) =>
                    match scanstring fuel' r2 with
                    | Some (str, rest) =>
                        Some ((utf8_encode u ++ str)%string, rest)
                    | None => None
                    end
                end
            end
          else if code c <? 32 then None
          else
            match scanstring fuel' r with
            | Some (str, rest) => Some (String c str, rest)
            | None => None
            end
      end
  end.

Definition literal (name : string) (v : json) (s : string)
  : option (json * string) :=
  match after_prefix name s with
  | Some r => Some (v, r)
  | None => None
  end.

Definition first_of {A} (a b : option A) : option A :=
  match a with
  | Some _ => a
  | None => b
  end.

Definition scalar (s : string) : option (json * string) :=
  first_of (literal "null" JNull s)
  (first_of (literal "true" (JBool true) s)
  (first_of (literal "false" (JBool false) s)
  (first_of (literal "NaN" (JFloat S754_nan) s)
  (first_of (literal "Infinity" (JFloat (S754_infinity false)) s)
  (first_of (literal "-Infinity" (JFloat (S754_infinity true)) s)
            (parse_number s)))))).

(** A value at the head of [s], and the rest.  Of two items of an object
    with one key the later value stays, at the place of the first. *)
Fixpoint scan_once (fuel : nat) (s : string) {struct fuel}
  : option (json * string) :=
  match fuel with
  | O => None
  | S fuel' =>
      match s with
      | EmptyString => None
      | String c r =>
          if code c =? 34 then
            match scanstring (S (String.length r)) r with
            | Some (str, rest) => Some (JStr str, rest)
            | None => None
            end
          else if code c =? 123 then
            match skip_ws r with
            | String c' r' =>
                if code c' =? 125 then Some (JDict [], r')
                else parse_object fuel' (String c' r') []
            | EmptyString => None
            end
          else if code c =? 91 then
            match skip_ws r with
            | String c' r' =>
                if code c' =? 93 then Some (JList [], r')
                else parse_array fuel' (String c' r') []
            | EmptyString => None
            end
          else scalar s
      end
  end

with parse_object (fuel : nat) (s : string) (acc : list (string * json))
  {struct fuel} : option (json * string) :=
  match fuel with
  | O => None
  | S fuel' =>
      match s with
      | EmptyString => None
      | String c r =>
          if code c =? 34 then
            match scanstring (S (String.length r)) r with
            | None => None
            | Some (key, r1) =>
                match skip_ws r1 with
                | EmptyString => None
                | String c1 r2 =>
                    if code c1 =? 58 then
                      match scan_once fuel' (skip_ws r2) with
                      | None => None
                      | Some (v, r3) =>
                          let acc := dict_set key v acc in
                          match skip_ws r3 with
                          | EmptyString => None
                          | String c3 r4 =>
                              if code c3 =? 125 then Some (JDict acc, r4)
                              else if code c3 =? 44
                              then parse_object fuel' (skip_ws r4) acc
                              else None
                          end
                      end
                    else None
                end
            end
          else None
      end
  end

with parse_array (fuel : nat) (s : string) (acc : list json)
  {struct fuel} : option (json * string) :=
  match fuel with
  | O => None
  | S fuel' =>
      match scan_once fuel' s with
      | None => None
      | Some (v, r) =>
          match skip_ws r with
          | EmptyString => None
          | String c r' =>
              if code c =? 93 then Some (JList (rev (v :: acc)), r')
              else if code c =? 44
              then parse_array fuel' (skip_ws r') (v :: acc)
              else None
          end
      end
  end.

(** [json.loads]: one value, white space around it, nothing else. *)
Definition loads (s : string) : result json :=
  let s := skip_ws s in
  match scan_once (2 * String.length s + 2) s with
  | None => Raise JSONDecodeError
  | Some (v, r) =>
      match skip_ws r with
      | EmptyString => Ok v
      | String _ _ => Raise JSONDecodeError
      end
  end.

Definition runtime : PyRuntime :=
  {| bytes_decode := decode; str_strip := strip; json_loads := loads |}.

(** A line of the wire, written with an apostrophe for each double
    quote. *)
Definition wire (s : string) : list byte :=
  map (fun b => if Byte.eqb b x27 then x22 else b) (list_byte_of_string s).

End CPython.

(** ** The case table of an event

    What [_parse_event] does with an event, whatever the stream: nothing,
    an overwrite of the two counters, a chunk, or an exception.
    [_parse_event_effect] below proves the method equal to this table. *)
Inductive effect : Type :=
| NoEffect
| SetUsage (p c : json)
| Emit (chunk : ChatChunk)
| Fails (e : exn).

(** [event.get("event")] of a dict. *)
Definition discriminator (d : list (string * json)) : json :=
  match assoc "event" d with
  | Some v => v
  | None => JNull
  end.

Definition get_or (d : list (string * json)) (k : string) (default : json)
  : json :=
  match assoc k d with
  | Some v => v
  | None => default
  end.

(** The chunk of an [agent_message] event with the answer [answer]. *)
Definition content_chunk (message_id answer : json) : ChatChunk :=
  {| request_id := message_id;
     choices := [ {| delta := {| role := "assistant"; content := answer |} |} ];
     usage := None |}.

Definition effect_of (event : json) : effect :=
  match event with
  | JDict d =>
      if py_eq_str (discriminator d) "message_end" then
        match assoc "metadata" d with
        | None => NoEffect
        | Some metadata =>
            match py_contains "usage" metadata with
            | Raise e => Fails e
            | Ok false => NoEffect
            | Ok true =>
                match py_getitem metadata "usage" with
                | Raise e => Fails e
                | Ok (JDict u) =>
                    SetUsage (get_or u "prompt_tokens" (JInt 0))
                             (get_or u "completion_tokens" (JInt 0))
                | Ok _ => Fails AttributeError
                end
            end
        end
      else if py_eq_str (discriminator d) "agent_message" then
        let answer := get_or d "answer" (JStr "") in
        if py_truthy answer
        then Emit (content_chunk (get_or d "message_id" (JStr "")) answer)
        else NoEffect
      else NoEffect
  | _ => Fails AttributeError
  end.

Definition apply_effect (eff : effect) : M LLMStream (option ChatChunk) :=
  fun s =>
    match eff with
    | NoEffect => (s, Ok None)
    | SetUsage p c => (set_output_tokens c (set_input_tokens p s), Ok None)
    | Emit chunk => (s, Ok (Some chunk))
    | Fails e => (s, Raise e)
    end.

(** What one pass of the loop of [_run] does to the frame, by the effect
    of its line: an exception is logged, a chunk is sent and clears
    [retryable]. *)
Definition apply_line (eff : effect) (fr : Frame) : Frame :=
  match eff with
  | NoEffect => fr
  | SetUsage p c =>
      {| self := set_output_tokens c (set_input_tokens p (self fr));
         retryable := retryable fr |}
  | Emit chunk =>
      {| self := send_nowait chunk (self fr); retryable := false |}
  | Fails e =>
      {| self := logger_error e (self fr); retryable := retryable fr |}
  end.

(** ** The words of the specification

    The notions the specification speaks in, defined on events and lines
    and not on the code: the event a line carries, the usage a
    [message_end] event carries, the content chunk of an [agent_message]
    event, and the usage last carried. *)

(** An event carries usage when it is a [message_end] object whose
    [metadata] is an object with a [usage] object; a count that is missing
    reads as 0. *)
Definition carried_usage (event : json) : option (json * json) :=
  match event with
  | JDict d =>
      if py_eq_str (discriminator d) "message_end" then
        match assoc "metadata" d with
        | Some (JDict metadata) =>
            match assoc "usage" metadata with
            | Some (JDict u) =>
                Some (get_or u "prompt_tokens" (JInt 0),
                      get_or u "completion_tokens" (JInt 0))
            | _ => None
            end
        | _ => None
        end
      else None
  | _ => None
  end.

(** An [agent_message] object has a content chunk when its answer is true
    as Python tests it: not absent, not empty. *)
Definition content_chunk_of (event : json) : option ChatChunk :=
  match event with
  | JDict d =>
      if py_eq_str (discriminator d) "agent_message" then
        match assoc "answer" d with
        | Some answer =>
            if py_truthy answer
            then Some (content_chunk (get_or d "message_id" (JStr "")) answer)
            else None
        | None => None
        end
      else None
  | _ => None
  end.

Fixpoint filter_map {A B} (f : A -> option B) (l : list A) : list B :=
  match l with
  | [] => []
  | a :: l' =>
      match f a with
      | Some b => b :: filter_map f l'
      | None => filter_map f l'
      end
  end.

Section Lines.

Context {rt : PyRuntime}.

(** The effect of a line: an empty line and a line without the prefix do
    nothing, a line that does not decode fails. *)
Definition line_effect_of (line : list byte) : effect :=
  match line with
  | [] => NoEffect
  | _ :: _ =>
      match bytes_decode line with
      | Raise e => Fails e
      | Ok s =>
          if String.prefix "data: " (str_strip s) then
            match json_loads (str_from 6 (str_strip s)) with
            | Raise e => Fails e
            | Ok event => effect_of event
            end
          else NoEffect
      end
  end.

(** The event of a well-formed line: the line is not empty, it decodes,
    it starts after trimming with the prefix, and the rest is JSON. *)
Definition event_of_line (line : list byte) : option json :=
  match line with
  | [] => None
  | _ :: _ =>
      match bytes_decode line with
      | Raise _ => None
      | Ok s =>
          if String.prefix "data: " (str_strip s) then
            match json_loads (str_from 6 (str_strip s)) with
            | Raise _ => None
            | Ok event => Some event
            end
          else None
      end
  end.

(** A malformed line: it does not decode, or it does not start after
    trimming with the prefix, or what follows the prefix is not JSON. *)
Definition malformed (line : list byte) : Prop :=
  match bytes_decode line with
  | Raise _ => True
  | Ok s =>
      String.prefix "data: " (str_strip s) = false
      \/ exists e, json_loads (str_from 6 (str_strip s)) = Raise e
  end.

Definition events (lines : list (list byte)) : list json :=
  filter_map event_of_line lines.

Definition content_chunks (lines : list (list byte)) : list ChatChunk :=
  filter_map content_chunk_of (events lines).

Definition usages (lines : list (list byte)) : list (json * json) :=
  filter_map carried_usage (events lines).

(** The usage of the last event that carried one, 0 and 0 without any. *)
Definition last_usage (lines : list (list byte)) : json * json :=
  last (usages lines) (JInt 0, JInt 0).

Definition is_int (v : json) : bool :=
  match v with
  | JInt _ => true
  | _ => false
  end.

(** A valid stream: every token count a usage carries is an int. *)
Definition integer_counts (lines : list (list byte)) : bool :=
  forallb (fun u => is_int (fst u) && is_int (snd u)) (usages lines).

(** The effect of a line, in these words. *)
Inductive line_kind (line : list byte) : effect -> Prop :=
| kind_usage event p c :
    event_of_line line = Some event ->
    carried_usage event = Some (p, c) ->
    content_chunk_of event = None ->
    line_kind line (SetUsage p c)
| kind_chunk event chunk :
    event_of_line line = Some event ->
    carried_usage event = None ->
    content_chunk_of event = Some chunk ->
    line_kind line (Emit chunk)
| kind_none event :
    event_of_line line = Some event ->
    carried_usage event = None ->
    content_chunk_of event = None ->
    line_kind line NoEffect
| kind_failed event e :
    event_of_line line = Some event ->
    carried_usage event = None ->
    content_chunk_of event = None ->
    line_kind line (Fails e)
| kind_skipped :
    event_of_line line = None ->
    line_kind line NoEffect
| kind_rejected e :
    event_of_line line = None ->
    line_kind line (Fails e).

(** The frame after the loop of [_run] over [lines]. *)
Definition run_lines (lines : list (list byte)) (fr : Frame) : Frame :=
  fold_left (fun fr line => apply_line (line_effect_of line) fr) lines fr.

End Lines.

Definition is_nil {A} (l : list A) : bool :=
  match l with
  | [] => true
  | _ :: _ => false
  end.

Definition counters (s : LLMStream) : json * json :=
  (_input_tokens s, _output_tokens s).

(** The response a call of [_run] reads: the one the stream holds, or the
    one it awaits. *)
Definition response_of (s : LLMStream) : result ClientResponse :=
  match _dify_stream s with
  | Some r => Ok r
  | None => _awaitable_dify_stream s
  end.

(** The stream once [_run] holds the response [r]. *)
Definition opened (r : ClientResponse) (s : LLMStream) : LLMStream :=
  match _dify_stream s with
  | Some _ => s
  | None => set_dify_stream r s
  end.


(** The chunk that carries only a usage summary. *)
Definition usage_chunk (rid : string) (p c total : json) : ChatChunk :=
  {| request_id := JStr rid;
     choices := [];
     usage := Some {| completion_tokens := c;
                      prompt_tokens := p;
                      total_tokens := total |} |}.

(** What a call of [_run] shows: the chunks on the channel, the two
    counters, the request id, and how the call ends. *)
Definition observable (out : LLMStream * result unit)
  : list ChatChunk * (json * json) * string * result unit :=
  (_event_ch (fst out), counters (fst out), _request_id (fst out), snd out).




(** ** Concrete streams *)
Module Examples.

Import CPython.

(** A response of status 200 whose body is [lines]. *)
Definition ok_response (lines : list (list byte)) : ClientResponse :=
  {| status := 200; text := Ok EmptyString;
     content_lines := lines; content_end := EndOfBody |}.

Definition hi_line : list byte :=
  wire "data: {'event':'agent_message','answer':'Hi','message_id':'m1'}".

Definition usage_10_5 : list byte :=
  wire "data: {'event':'message_end','metadata':{'usage':{'prompt_tokens':10,'completion_tokens':5}}}".

Definition usage_20_8 : list byte :=
  wire "data: {'event':'message_end','metadata':{'usage':{'prompt_tokens':20,'completion_tokens':8}}}".

Definition usage_null : list byte :=
  wire "data: {'event':'message_end','metadata':{'usage':{'prompt_tokens':null,'completion_tokens':5}}}".

Definition not_json : list byte := wire "data: {'event':".

Definition bad_key_body : string :=
  string_of_list_byte (wire "{'error':'bad key'}").

Definition bad_key_response : ClientResponse :=
  {| status := 401; text := Ok bad_key_body;
     content_lines := []; content_end := EndOfBody |}.

Definition hi_chunk : ChatChunk := content_chunk (JStr "m1") (JStr "Hi").

Definition fresh (resp : ClientResponse) : LLMStream :=
  LLMStream__init__ (Ok resp).

Definition options (temperature : option spec_float) : LLMOptions.t :=
  {| LLMOptions.api_key := "key";
     LLMOptions.api_base := "https://api.dify.ai";
     LLMOptions.temperature := temperature;
     LLMOptions.conversation_id := None |}.

Definition client (temperature : option spec_float) : Client :=
  {| this := {| _opts := options temperature; _session := None |};
     sessions_created := 0;
     posted := [] |}.

Definition user (s : string) : ChatMessage :=
  {| msg_role := "user"; msg_content := JStr s |}.

Definition assistant (s : string) : ChatMessage :=
  {| msg_role := "assistant"; msg_content := JStr s |}.

Definition system (s : string) : ChatMessage :=
  {| msg_role := "system"; msg_content := JStr s |}.

(** A transport that answers every request with an empty body. *)
Definition silent (_ : HttpRequest) : result ClientResponse :=
  Ok (ok_response []).

(** 0.5 and 0.25 in binary64. *)
Definition half : spec_float := S754_finite false 4503599627370496 (-53).
Definition quarter : spec_float := S754_finite false 4503599627370496 (-54).

Definition two_usages : ClientResponse :=
  ok_response [hi_line; usage_10_5; hi_line; usage_20_8].

Definition broken_after_chunk : ClientResponse :=
  {| status := 200; text := Ok EmptyString;
     content_lines := [hi_line]; content_end := ReadError ClientError |}.

Definition hi_event : list (string * json) :=
  [ ("event", JStr "agent_message"); ("answer", JStr "Hi");
    ("message_id", JStr "m1") ].


Definition completion_only_event : list (string * json) :=
  [ ("event", JStr "message_end");
    ("metadata", JDict [("usage", JDict [("completion_tokens", JInt 7)])]) ].

Definition counted_10_5 : LLMStream :=
  set_output_tokens (JInt 5)
    (set_input_tokens (JInt 10) (fresh (ok_response []))).

End Examples.

(** ** The rest of [LLM]: [from_env] and [close] *)

(** The truth value of an optional str: [None] and the empty str are
    false. *)
Definition str_truthy (a : option string) : bool :=
  match a with
  | Some s => negb (String.eqb s "")
  | None => false
  end.

(** [LLM.from_env], for the environment [environ] ([os.getenv]). *)
Definition from_env (environ : string -> option string) : result LLM :=
  let api_key := environ "DIFY_API_KEY" in
  if negb (str_truthy api_key) then
    Raise (ValueError "DIFY_API_KEY environment variable is required")
  else
    let api_base :=
      match environ "DIFY_API_BASE" with
      | Some v => Some v
      | None => Some "https://api.dify.ai"
      end in
    LLM__init__ (environ "DIFY_API_KEY") api_key api_base None None.

(** The adapter, its network, and the sessions whose [close()] has
    completed, oldest first. *)
Record Process : Type := {
  adapter : Client;
  closed : list ClientSession
}.

(** A new adapter in a network that has seen nothing. *)
Definition start (llm : LLM) : Process :=
  {| adapter := {| this := llm; sessions_created := 0; posted := [] |};
     closed := [] |}.

Definition on_client {A} (m : M Client A) : M Process A :=
  fun p =>
    let (c', r) := m (adapter p) in
    ({| adapter := c'; closed := closed p |}, r).

Definition record_closed (s : ClientSession) : M Process unit :=
  modify (fun p => {| adapter := adapter p; closed := closed p ++ [s] |}).

Definition clear_session : M Process unit :=
  modify (fun p =>
    {| adapter :=
         {| this := {| _opts := _opts (this (adapter p)); _session := None |};
            sessions_created := sessions_created (adapter p);
            posted := posted (adapter p) |};
       closed := closed p |}).

(** A call on the adapter. *)
Inductive call : Type :=
| Chat (chat_ctx : list ChatMessage) (temperature : option spec_float)
| Close.

Definition is_chat (c : call) : bool :=
  match c with
  | Chat _ _ => true
  | Close => false
  end.

Section Lifecycle.

Variable http : HttpRequest -> result ClientResponse.

(** What awaiting [session.close()] yields. *)
Variable session_close : ClientSession -> result unit.

(** [LLM.close]. *)
Definition close : M Process unit :=
  session <- gets (fun p => _session (this (adapter p))) ;;
  match session with
  | Some s =>
      lift (session_close s) ;;
      record_closed s ;;
      clear_session
  | None => ret tt
  end.

(** A call as the program makes it: whatever it returns or raises, the
    program goes on with the adapter as the call left it. *)
Definition do_call (c : call) (p : Process) : Process :=
  match c with
  | Chat chat_ctx temperature => fst (on_client (chat http chat_ctx temperature) p)
  | Close => fst (close p)
  end.

Definition do_calls (calls : list call) (p : Process) : Process :=
  fold_left (fun p c => do_call c p) calls p.

End Lifecycle.

(** The discipline of sessions: every session created is either the one
    the adapter holds or one that was closed, none was closed twice, and
    every request went out on a session that was created. *)
Record disciplined (p : Process) : Prop := {
  none_leaked :
    sessions_created (adapter p)
    = List.length (closed p)
      + match _session (this (adapter p)) with Some _ => 1 | None => 0 end;
  closed_once : NoDup (closed p);
  closed_created :
    forall s, In s (closed p) -> s < sessions_created (adapter p);
  held_live :
    forall s, _session (this (adapter p)) = Some s ->
              s < sessions_created (adapter p) /\ ~ In s (closed p);
  posted_created :
    forall s req, In (s, req) (posted (adapter p)) ->
                  s < sessions_created (adapter p)
}.


Module MoreExamples.

Import Examples.

(** An environment with a key and no base. *)
Definition env_key_only (k : string) : option string :=
  if String.eqb k "DIFY_API_KEY" then Some "secret" else None.

(** A transport whose sessions close without an error. *)
Definition closes (_ : ClientSession) : result unit := Ok tt.

Definition list_line : list byte := CPython.wire "data: [1, 2]".


Definition cut_after_hi : ClientResponse :=
  {| status := 200; text := Ok EmptyString;
     content_lines := [hi_line]; content_end := ReadError TimeoutError |}.

Definition unreachable : LLMStream := LLMStream__init__ (Raise ClientError).

Definition server_error : ClientResponse :=
  {| status := 500; text := Raise ClientError;
     content_lines := [hi_line; usage_10_5]; content_end := EndOfBody |}.

Definition llm_of (temperature : option spec_float) : LLM :=
  {| _opts := options temperature; _session := None |}.

End MoreExamples.

(** * Facts *)

(** ** [_parse_event] *)

Lemma _parse_event_effect (event : json) (s : LLMStream) :
  _parse_event event s = apply_effect (effect_of event) s.
Proof.
  destruct event as [| b | n | x | t | l | d]; try reflexivity.
  unfold _parse_event, effect_of, discriminator, get_or.
  run_monad.
  destruct (py_eq_str _ "message_end").
  - destruct (assoc "metadata" d) as [metadata |]; [| reflexivity].
    destruct (py_contains "usage" metadata) as [[|] | e]; try reflexivity.
    destruct metadata as [| b | n | x | t | l | md]; try reflexivity.
    simpl. destruct (assoc "usage" md) as [u |]; [| reflexivity].
    destruct u; reflexivity.
  - destruct (py_eq_str _ "agent_message"); [| reflexivity].
    destruct (py_truthy _); reflexivity.
Qed.

(** The two branches of [_parse_event] exclude each other. *)
Lemma discriminator_exclusive (x : json) :
  py_eq_str x "message_end" = true -> py_eq_str x "agent_message" = false.
Proof.
  destruct x; simpl; try discriminate.
  intros H. apply String.eqb_eq in H. subst. reflexivity.
Qed.

(** The table against the words of the specification. *)
Lemma effect_of_words (event : json) :
  match effect_of event with
  | SetUsage p c =>
      carried_usage event = Some (p, c) /\ content_chunk_of event = None
  | Emit chunk =>
      carried_usage event = None /\ content_chunk_of event = Some chunk
  | NoEffect | Fails _ =>
      carried_usage event = None /\ content_chunk_of event = None
  end.
Proof.
  destruct event as [| b | n | x | t | l | d]; simpl; auto.
  destruct (py_eq_str (discriminator d) "message_end") eqn:Hend.
  - rewrite (discriminator_exclusive _ Hend).
    destruct (assoc "metadata" d) as [metadata |]; auto.
    destruct metadata as [| b | n | x | t | l | md]; simpl; auto.
    + destruct (is_substring "usage" t); auto.
    + destruct (existsb _ l); auto.
    + destruct (assoc "usage" md) as [u |]; auto.
      destruct u; auto.
  - destruct (py_eq_str (discriminator d) "agent_message"); auto.
    unfold get_or at 1 3.
    destruct (assoc "answer" d) as [answer |]; simpl; auto.
    destruct (py_truthy answer); auto.
Qed.

Lemma last_cons {A} (a d : A) (l : list A) : last (a :: l) d = last l a.
Proof.
  revert a d. induction l as [| b l IH]; intros a d; [reflexivity |].
  change (last (a :: b :: l) d) with (last (b :: l) d).
  now rewrite !IH.
Qed.

Lemma filter_map_app {A B} (f : A -> option B) (l1 l2 : list A) :
  filter_map f (l1 ++ l2) = filter_map f l1 ++ filter_map f l2.
Proof.
  induction l1 as [| a l1 IH]; [reflexivity |].
  simpl. destruct (f a); simpl; now rewrite IH.
Qed.

Section StreamFacts.

Context {rt : PyRuntime}.

Lemma process_line_effect (line : list byte) (fr : Frame) :
  process_line line fr = (apply_line (line_effect_of line) fr, Ok tt).
Proof.
  destruct line as [| b line]; [reflexivity |].
  unfold process_line, line_effect_of.
  run_monad.
  destruct (bytes_decode (b :: line)) as [s | e]; [| reflexivity].
  destruct (String.prefix "data: " (str_strip s)); [| reflexivity].
  destruct (json_loads _) as [event | e]; [| reflexivity].
  rewrite _parse_event_effect.
  destruct (effect_of event); destruct fr; reflexivity.
Qed.

Lemma iterate_content_lines (lines : list (list byte)) (fr : Frame) :
  iterate_content lines fr = (run_lines lines fr, Ok tt).
Proof.
  revert fr.
  induction lines as [| line lines IH]; intros fr; [reflexivity |].
  simpl. unfold bind. rewrite process_line_effect. apply IH.
Qed.

Lemma line_effect_event (line : list byte) :
  match event_of_line line with
  | Some event => line_effect_of line = effect_of event
  | None =>
      line_effect_of line = NoEffect \/ exists e, line_effect_of line = Fails e
  end.
Proof.
  unfold event_of_line, line_effect_of.
  destruct line as [| b line]; [now left |].
  destruct (bytes_decode (b :: line)) as [s | e]; [| right; eauto].
  destruct (String.prefix "data: " (str_strip s)); [| now left].
  destruct (json_loads _) as [event | e]; [reflexivity | right; eauto].
Qed.

Lemma line_effect_kind (line : list byte) :
  line_kind line (line_effect_of line).
Proof.
  pose proof (line_effect_event line) as H.
  destruct (event_of_line line) as [event |] eqn:Hev.
  - rewrite H. pose proof (effect_of_words event) as W.
    destruct (effect_of event); destruct W; econstructor; eauto.
  - destruct H as [H | [e H]]; rewrite H; constructor; assumption.
Qed.

Lemma malformed_no_event (line : list byte) :
  malformed line -> event_of_line line = None.
Proof.
  unfold malformed, event_of_line.
  destruct line as [| b line]; [reflexivity |].
  destruct (bytes_decode (b :: line)) as [s | e]; [| reflexivity].
  intros [H | [e H]]; rewrite H; [reflexivity |].
  now destruct (String.prefix "data: " (str_strip s)).
Qed.

Lemma content_chunks_cons line lines :
  content_chunks (line :: lines)
  = match event_of_line line with
    | Some event =>
        match content_chunk_of event with
        | Some chunk => chunk :: content_chunks lines
        | None => content_chunks lines
        end
    | None => content_chunks lines
    end.
Proof.
  unfold content_chunks, events. simpl.
  destruct (event_of_line line) as [event |]; [| reflexivity].
  simpl. destruct (content_chunk_of event); reflexivity.
Qed.

Lemma usages_cons line lines :
  usages (line :: lines)
  = match event_of_line line with
    | Some event =>
        match carried_usage event with
        | Some u => u :: usages lines
        | None => usages lines
        end
    | None => usages lines
    end.
Proof.
  unfold usages, events. simpl.
  destruct (event_of_line line) as [event |]; [| reflexivity].
  simpl. destruct (carried_usage event); reflexivity.
Qed.

Lemma events_without (before after : list (list byte)) (bad : list byte) :
  event_of_line bad = None ->
  events (before ++ bad :: after) = events (before ++ after).
Proof.
  intros H. unfold events. rewrite !filter_map_app. simpl. now rewrite H.
Qed.

Lemma run_lines_event_ch lines fr :
  _event_ch (self (run_lines lines fr))
  = _event_ch (self fr) ++ content_chunks lines.
Proof.
  revert fr. induction lines as [| line lines IH]; intros fr.
  - simpl. now rewrite app_nil_r.
  - unfold run_lines in *. simpl. rewrite IH.
    destruct (line_effect_kind line) as
      [event p c Hev Hu Hc | event chunk Hev Hu Hc | event Hev Hu Hc
      | event e Hev Hu Hc | Hev | e Hev];
      rewrite ?content_chunks_cons, ?usages_cons, Hev, ?Hu, ?Hc; simpl; try reflexivity.
    now rewrite <- app_assoc.
Qed.

Lemma run_lines_counters lines fr :
  counters (self (run_lines lines fr))
  = last (usages lines) (counters (self fr)).
Proof.
  revert fr. induction lines as [| line lines IH]; intros fr.
  - reflexivity.
  - unfold run_lines in *. simpl. rewrite IH.
    destruct (line_effect_kind line) as
      [event p c Hev Hu Hc | event chunk Hev Hu Hc | event Hev Hu Hc
      | event e Hev Hu Hc | Hev | e Hev];
      rewrite ?content_chunks_cons, ?usages_cons, Hev, ?Hu, ?Hc; try reflexivity.
    now rewrite last_cons.
Qed.

Lemma run_lines_request_id lines fr :
  _request_id (self (run_lines lines fr)) = _request_id (self fr).
Proof.
  revert fr. induction lines as [| line lines IH]; intros fr.
  - reflexivity.
  - unfold run_lines in *. simpl. rewrite IH.
    destruct (line_effect_of line); reflexivity.
Qed.

Lemma run_lines_retryable lines fr :
  retryable (run_lines lines fr)
  = retryable fr && is_nil (content_chunks lines).
Proof.
  revert fr. induction lines as [| line lines IH]; intros fr.
  - simpl. now rewrite andb_true_r.
  - unfold run_lines in *. simpl. rewrite IH.
    destruct (line_effect_kind line) as
      [event p c Hev Hu Hc | event chunk Hev Hu Hc | event Hev Hu Hc
      | event e Hev Hu Hc | Hev | e Hev];
      rewrite ?content_chunks_cons, ?usages_cons, Hev, ?Hu, ?Hc; simpl; try reflexivity.
    now rewrite andb_false_r.
Qed.

Lemma content_chunks_no_usage lines :
  Forall (fun chunk => usage chunk = None /\ choices chunk <> [])
         (content_chunks lines).
Proof.
  unfold content_chunks.
  induction (events lines) as [| event evs IH]; simpl; [constructor |].
  destruct (content_chunk_of event) as [chunk |] eqn:H; [| assumption].
  constructor; [| assumption].
  destruct event as [| b | n | x | t | l | d]; try discriminate.
  simpl in H.
  destruct (py_eq_str _ _); [| discriminate].
  destruct (assoc "answer" d) as [answer |]; [| discriminate].
  destruct (py_truthy answer); [| discriminate].
  injection H as <-. split; [reflexivity | discriminate].
Qed.

(** [_run], case by case. *)
Lemma _run_cases (s : LLMStream) :
  _run s =
  match response_of s with
  | Raise e => (s, Raise (APIConnectionError true e))
  | Ok response =>
      if Z.eqb (status response) 200 then
        let fr := run_lines (content_lines response)
                    {| self := opened response s; retryable := true |} in
        match content_end response with
        | ReadError e => (self fr, Raise (APIConnectionError (retryable fr) e))
        | EndOfBody =>
            match py_add (_input_tokens (self fr)) (_output_tokens (self fr)) with
            | Ok total =>
                (send_nowait (final_chunk (self fr) total) (self fr), Ok tt)
            | Raise e => (self fr, Raise (APIConnectionError (retryable fr) e))
            end
        end
      else
        match text response with
        | Ok error_text =>
            (opened response s,
             Raise (APIConnectionError true
                      (APIStatusError ("Dify API error: " ++ error_text)
                                      (status response) error_text)))
        | Raise e => (opened response s, Raise (APIConnectionError true e))
        end
  end.
Proof.
  unfold _run, _run_frame, response_of, opened.
  run_monad.
  destruct (_dify_stream s) as [response |] eqn:Hs; simpl.
  - destruct (Z.eqb (status response) 200); simpl.
    + rewrite (iterate_content_lines (content_lines response)).
      destruct (content_end response) as [| e].
      * destruct (py_add _ _) as [total | e]; simpl.
        -- reflexivity.
        -- destruct (is_client_error e); reflexivity.
      * destruct (is_client_error e); reflexivity.
    + destruct (text response) as [error_text | e]; simpl.
      * reflexivity.
      * destruct (is_client_error e); reflexivity.
  - destruct (_awaitable_dify_stream s) as [response | e]; simpl.
    + destruct (Z.eqb (status response) 200); simpl.
      * rewrite (iterate_content_lines (content_lines response)).
        destruct (content_end response) as [| e].
        -- destruct (py_add _ _) as [total | e]; simpl.
           ++ reflexivity.
           ++ destruct (is_client_error e); reflexivity.
        -- destruct (is_client_error e); reflexivity.
      * destruct (text response) as [error_text | e]; simpl.
        -- reflexivity.
        -- destruct (is_client_error e); reflexivity.
    + destruct (is_client_error e); reflexivity.
Qed.

Lemma opened_event_ch r s : _event_ch (opened r s) = _event_ch s.
Proof. unfold opened. now destruct (_dify_stream s). Qed.

Lemma opened_counters r s : counters (opened r s) = counters s.
Proof. unfold opened. now destruct (_dify_stream s). Qed.

Lemma opened_request_id r s : _request_id (opened r s) = _request_id s.
Proof. unfold opened. now destruct (_dify_stream s). Qed.

End StreamFacts.

(** ** [_run] *)

Section RunFacts.

Context {rt : PyRuntime}.

(** What a call of [_run] shows, in the words of the specification. *)
Lemma observable_run (s : LLMStream) :
  observable (_run s) =
  match response_of s with
  | Raise e =>
      (_event_ch s, counters s, _request_id s,
       Raise (APIConnectionError true e))
  | Ok response =>
      if Z.eqb (status response) 200 then
        let lines := content_lines response in
        let chunks := _event_ch s ++ content_chunks lines in
        let cs := last (usages lines) (counters s) in
        let flag := is_nil (content_chunks lines) in
        match content_end response with
        | ReadError e =>
            (chunks, cs, _request_id s, Raise (APIConnectionError flag e))
        | EndOfBody =>
            match py_add (fst cs) (snd cs) with
            | Ok total =>
                (chunks ++ [usage_chunk (_request_id s) (fst cs) (snd cs) total],
                 cs, _request_id s, Ok tt)
            | Raise e =>
                (chunks, cs, _request_id s, Raise (APIConnectionError flag e))
            end
        end
      else
        (_event_ch s, counters s, _request_id s,
         Raise (APIConnectionError true
                  match text response with
                  | Ok error_text =>
                      APIStatusError ("Dify API error: " ++ error_text)
                                     (status response) error_text
                  | Raise e => e
                  end))
  end.
Proof.
  rewrite _run_cases.
  destruct (response_of s) as [response | e]; [| reflexivity].
  destruct (Z.eqb (status response) 200).
  - set (fr0 := {| self := opened response s; retryable := true |}).
    pose proof (run_lines_event_ch (content_lines response) fr0) as Hch.
    pose proof (run_lines_counters (content_lines response) fr0) as Hcs.
    pose proof (run_lines_request_id (content_lines response) fr0) as Hid.
    pose proof (run_lines_retryable (content_lines response) fr0) as Hre.
    simpl in Hch, Hcs, Hid, Hre.
    rewrite opened_event_ch in Hch.
    rewrite opened_counters in Hcs.
    rewrite opened_request_id in Hid.
    cbv zeta.
    set (fr := run_lines (content_lines response) fr0) in *.
    destruct (last (usages (content_lines response)) (counters s))
      as [p c] eqn:Hlast.
    injection Hcs as Hin Hout.
    rewrite Hin, Hout, Hre. simpl fst. simpl snd.
    unfold observable, counters.
    destruct (content_end response) as [| e].
    + destruct (py_add p c) as [total | e]; simpl;
        unfold final_chunk, usage_chunk; now rewrite Hch, Hid, Hin, Hout.
    + simpl. now rewrite Hch, Hid, Hin, Hout.
  - unfold observable.
    destruct (text response) as [error_text | e]; simpl;
      now rewrite opened_event_ch, opened_counters, opened_request_id.
Qed.

End RunFacts.

(** ** The claims on [_parse_event] *)

Lemma py_eq_str_true (x : json) (k : string) :
  py_eq_str x k = true <-> x = JStr k.
Proof.
  destruct x; simpl; split; try discriminate.
  - intros H. apply String.eqb_eq in H. now subst.
  - intros H. injection H as ->. apply String.eqb_refl.
Qed.

Lemma py_eq_str_false (x : json) (k : string) :
  py_eq_str x k = false <-> x <> JStr k.
Proof.
  rewrite <- py_eq_str_true. destruct (py_eq_str x k); split; congruence.
Qed.


(** C7.  For an event whose discriminator is agent_message: when the
    answer is absent or empty (false as Python's [not answer] tests it:
    the empty str, and with it None, False, 0, an empty list or dict), the
    method returns no chunk; when the answer is not empty it returns
    exactly one chunk, whose request id is the message_id of the event
    (the empty str when the event has none), with one choice whose delta
    has the role assistant and the answer as content.  For an event whose
    discriminator is neither agent_message nor message_end it returns no
    chunk.  In all these cases the stream is left as it was. *)
Theorem agent_message_chunk (d : list (string * json)) (s : LLMStream) :
  (discriminator d = JStr "agent_message" ->
   ((assoc "answer" d = None
     \/ exists answer, assoc "answer" d = Some answer
                       /\ py_truthy answer = false) ->
    _parse_event (JDict d) s = (s, Ok None))
   /\ (forall answer,
         assoc "answer" d = Some answer ->
         py_truthy answer = true ->
         _parse_event (JDict d) s
         = (s, Ok (Some {| request_id := get_or d "message_id" (JStr "");
                           choices :=
                             [ {| delta := {| role := "assistant";
                                              content := answer |} |} ];
                           usage := None |})))
   /\ (forall text message_id,
         assoc "answer" d = Some (JStr text) ->
         text <> "" ->
         assoc "message_id" d = Some message_id ->
         _parse_event (JDict d) s
         = (s, Ok (Some {| request_id := message_id;
                           choices :=
                             [ {| delta := {| role := "assistant";
                                              content := JStr text |} |} ];
                           usage := None |}))))
  /\ (discriminator d <> JStr "agent_message" ->
      discriminator d <> JStr "message_end" ->
      _parse_event (JDict d) s = (s, Ok None)).
Proof.
  rewrite _parse_event_effect. unfold effect_of.
  split.
  - intros Hd. rewrite Hd. simpl. unfold get_or.
    split; [| split].
    + intros [H | [answer [H Hf]]]; rewrite H; simpl; [reflexivity |].
      now rewrite Hf.
    + intros answer H Ht. rewrite H, Ht. reflexivity.
    + intros text message_id H Hne Hm. rewrite H, Hm. simpl.
      destruct (String.eqb text "") eqn:E; [| reflexivity].
      apply String.eqb_eq in E. contradiction.
  - intros Ha He.
    apply py_eq_str_false in Ha, He. now rewrite Ha, He.
Qed.


(** C10.  [_parse_event] changes a usage counter only for a message_end
    event whose metadata holds usage; an event of any other discriminator
    (agent_message or unknown) leaves the whole stream, and so both
    counters, as it was; a message_end event leaves the stored request id
    as it was and returns no chunk.  No event changes the request id or
    the channel. *)
Theorem parse_event_frame (event : json) (s : LLMStream) :
  (counters (fst (_parse_event event s)) <> counters s ->
   exists d metadata,
     event = JDict d
     /\ discriminator d = JStr "message_end"
     /\ assoc "metadata" d = Some metadata
     /\ py_contains "usage" metadata = Ok true)
  /\ (forall d, event = JDict d ->
                discriminator d <> JStr "message_end" ->
                fst (_parse_event event s) = s)
  /\ (forall d, event = JDict d ->
                discriminator d = JStr "message_end" ->
                _request_id (fst (_parse_event event s)) = _request_id s
                /\ forall chunk, snd (_parse_event event s) <> Ok (Some chunk))
  /\ _request_id (fst (_parse_event event s)) = _request_id s
  /\ _event_ch (fst (_parse_event event s)) = _event_ch s.
Proof.
  rewrite _parse_event_effect.
  split; [| split; [| split; [| split]]].
  - intros H.
    destruct event as [| b | n | x | t | l | d];
      try (exfalso; apply H; reflexivity).
    simpl in H.
    destruct (py_eq_str (discriminator d) "message_end") eqn:Hd;
      [| exfalso; apply H;
         destruct (py_eq_str (discriminator d) "agent_message");
         [destruct (py_truthy _) |]; reflexivity].
    apply py_eq_str_true in Hd.
    destruct (assoc "metadata" d) as [metadata |] eqn:Hm;
      [| exfalso; apply H; reflexivity].
    destruct (py_contains "usage" metadata) as [[|] | e] eqn:Hc;
      try (exfalso; apply H; reflexivity).
    exists d, metadata. repeat split; assumption.
  - intros d -> Hd. apply py_eq_str_false in Hd. simpl. rewrite Hd.
    destruct (py_eq_str (discriminator d) "agent_message");
      [destruct (py_truthy _) |]; reflexivity.
  - intros d -> Hd. simpl. rewrite Hd. simpl.
    destruct (assoc "metadata" d) as [metadata |];
      [| split; [reflexivity | discriminate]].
    destruct (py_contains "usage" metadata) as [[|] | e];
      try (split; [reflexivity | discriminate]).
    destruct (py_getitem metadata "usage") as [u | e];
      [| split; [reflexivity | discriminate]].
    destruct u; split; try reflexivity; discriminate.
  - destruct (effect_of event); reflexivity.
  - destruct (effect_of event); reflexivity.
Qed.

(** ** The claims on [_run] *)

Section RunClaims.

Context {rt : PyRuntime}.

Lemma observable_parts (out : LLMStream * result unit) chunks cs rid r :
  observable out = (chunks, cs, rid, r) ->
  _event_ch (fst out) = chunks
  /\ counters (fst out) = cs
  /\ _request_id (fst out) = rid
  /\ snd out = r.
Proof.
  unfold observable. intros H. injection H as H1 H2 H3 H4. auto.
Qed.

(** The final chunk when the two counts last carried can be added. *)
Lemma final_chunk_when_counts_add (resp : ClientResponse) (total : json) :
  status resp = 200%Z ->
  content_end resp = EndOfBody ->
  py_add (fst (last_usage (content_lines resp)))
         (snd (last_usage (content_lines resp))) = Ok total ->
  snd (_run (LLMStream__init__ (Ok resp))) = Ok tt
  /\ _event_ch (fst (_run (LLMStream__init__ (Ok resp))))
     = content_chunks (content_lines resp)
       ++ [usage_chunk ""
             (fst (last_usage (content_lines resp)))
             (snd (last_usage (content_lines resp))) total].
Proof.
  intros Hst Hend Hadd.
  pose proof (observable_run (LLMStream__init__ (Ok resp))) as H.
  unfold response_of in H. simpl in H.
  rewrite Hst, Hend in H. simpl in H.
  change (last (usages (content_lines resp))
            (counters (LLMStream__init__ (Ok resp))))
    with (last_usage (content_lines resp)) in H.
  rewrite Hadd in H.
  apply observable_parts in H. destruct H as [Hch [_ [_ Hr]]].
  split; assumption.
Qed.

(** On a valid stream the usage last carried is a pair of ints. *)
Lemma integer_counts_last_usage (lines : list (list byte)) :
  integer_counts lines = true ->
  exists p c, last_usage lines = (JInt p, JInt c).
Proof.
  unfold integer_counts, last_usage.
  assert (H : forall (l : list (json * json)) d,
            (exists p c, d = (JInt p, JInt c)) ->
            forallb (fun u => is_int (fst u) && is_int (snd u)) l = true ->
            exists p c, last l d = (JInt p, JInt c)).
  { induction l as [| u l IH]; intros d Hd Hall; [assumption |].
    simpl in Hall. apply andb_true_iff in Hall. destruct Hall as [Hu Hall].
    rewrite last_cons. apply IH; [| assumption].
    destruct u as [[| b | p | x | t | l0 | d0] [| b' | c | x' | t' | l1 | d1]];
      try discriminate.
    now exists p, c. }
  apply H. now exists 0%Z, 0%Z.
Qed.

(** C1.  For a valid stream (every token count a usage carries is an int)
    that terminates normally (status 200, the body ends without an error
    of the transport), the call returns and the channel holds the content
    chunks, none of which has a usage, then exactly one final chunk: its
    prompt_tokens and completion_tokens are the counts of the last event
    that carried usage, 0 and 0 when no event carried any, and its
    total_tokens is their sum.  A later usage replaces an earlier one:
    only the last one counts, however many content chunks come before or
    between. *)
Theorem final_usage_chunk (resp : ClientResponse) :
  status resp = 200%Z ->
  content_end resp = EndOfBody ->
  integer_counts (content_lines resp) = true ->
  exists p c : Z,
    last_usage (content_lines resp) = (JInt p, JInt c)
    /\ snd (_run (LLMStream__init__ (Ok resp))) = Ok tt
    /\ _event_ch (fst (_run (LLMStream__init__ (Ok resp))))
       = content_chunks (content_lines resp)
         ++ [usage_chunk "" (JInt p) (JInt c) (JInt (p + c))]
    /\ Forall (fun chunk => usage chunk = None /\ choices chunk <> [])
              (content_chunks (content_lines resp))
    /\ (usages (content_lines resp) = [] -> p = 0%Z /\ c = 0%Z)
    /\ (forall earlier u,
          usages (content_lines resp) = earlier ++ [u] ->
          u = (JInt p, JInt c)).
Proof.
  intros Hst Hend Hint.
  destruct (integer_counts_last_usage _ Hint) as [p [c Hl]].
  exists p, c.
  destruct (final_chunk_when_counts_add resp (JInt (p + c)) Hst Hend)
    as [Hr Hch]; [now rewrite Hl |].
  rewrite Hl in Hch.
  split; [assumption |]. split; [assumption |]. split; [assumption |].
  split; [apply content_chunks_no_usage |].
  unfold last_usage in Hl. split.
  - intros Hnone. rewrite Hnone in Hl. simpl in Hl.
    injection Hl as <- <-. now split.
  - intros earlier u Hu. rewrite Hu, last_last in Hl. assumption.
Qed.

(** C2.  For a response whose status is not 200 and whose body reads as
    [body], the call raises APIConnectionError, marked retryable, with the
    APIStatusError of that status and body only as its cause; no chunk is
    sent. *)
Theorem status_error_is_wrapped (s : LLMStream) (resp : ClientResponse)
    (body : string) :
  response_of s = Ok resp ->
  status resp <> 200%Z ->
  text resp = Ok body ->
  snd (_run s)
  = Raise (APIConnectionError true
             (APIStatusError ("Dify API error: " ++ body) (status resp) body))
  /\ _event_ch (fst (_run s)) = _event_ch s.
Proof.
  intros Hresp Hst Htext.
  pose proof (observable_run s) as H.
  rewrite Hresp in H.
  apply Z.eqb_neq in Hst. rewrite Hst, Htext in H.
  apply observable_parts in H. destruct H as [Hch [_ [_ Hr]]].
  split; assumption.
Qed.

(** C3.  When the call returns, the last chunk on the channel carries the
    request id the stream held before the call, and the stream holds it
    still: no event changes it.  A stream made by [__init__] holds the
    empty str. *)
Theorem final_chunk_request_id (s : LLMStream) :
  snd (_run s) = Ok tt ->
  exists content fin,
    _event_ch (fst (_run s)) = _event_ch s ++ content ++ [fin]
    /\ request_id fin = JStr (_request_id s)
    /\ _request_id (fst (_run s)) = _request_id s.
Proof.
  intros Hok.
  pose proof (observable_run s) as H.
  destruct (response_of s) as [resp | e].
  - destruct (Z.eqb (status resp) 200).
    + cbv zeta in H. destruct (content_end resp) as [| e].
      * destruct (py_add _ _) as [total | e];
          apply observable_parts in H; destruct H as [Hch [_ [Hid Hr]]];
          [| congruence].
        exists (content_chunks (content_lines resp)).
        eexists. rewrite Hch, app_assoc.
        split; [reflexivity | split; [reflexivity | assumption]].
      * apply observable_parts in H. destruct H as [_ [_ [_ Hr]]]. congruence.
    + apply observable_parts in H. destruct H as [_ [_ [_ Hr]]]. congruence.
  - apply observable_parts in H. destruct H as [_ [_ [_ Hr]]]. congruence.
Qed.

(** C5.  A malformed line (it does not decode, or does not start after
    trimming with the prefix, or what follows the prefix is not JSON) is
    skipped: its pass of the loop returns, sends nothing, and leaves the
    counters, the request id and the retryable flag as they were; and a
    stream with the line shows what the stream without it shows, the same
    chunks in the same order and the same end. *)
Theorem malformed_line_is_skipped (bad : list byte) :
  malformed bad ->
  (forall fr,
     snd (process_line bad fr) = Ok tt
     /\ _event_ch (self (fst (process_line bad fr))) = _event_ch (self fr)
     /\ counters (self (fst (process_line bad fr))) = counters (self fr)
     /\ _request_id (self (fst (process_line bad fr))) = _request_id (self fr)
     /\ retryable (fst (process_line bad fr)) = retryable fr)
  /\ (forall st txt before after ending,
        observable
          (_run (LLMStream__init__
                   (Ok {| status := st; text := txt;
                          content_lines := before ++ bad :: after;
                          content_end := ending |})))
        = observable
            (_run (LLMStream__init__
                     (Ok {| status := st; text := txt;
                            content_lines := before ++ after;
                            content_end := ending |})))).
Proof.
  intros Hbad. apply malformed_no_event in Hbad.
  split.
  - intros fr. rewrite process_line_effect. simpl.
    destruct (line_effect_kind bad); try congruence; repeat split.
  - intros st txt before after ending.
    rewrite !observable_run. unfold response_of. simpl.
    unfold content_chunks, usages.
    now rewrite (events_without before after bad Hbad).
Qed.

(** C6.  Every exception that leaves [_run] is an APIConnectionError, and
    its retryable flag is true exactly when the call had sent no chunk;
    the chunks sent before a failure are content chunks.  In the loop the
    flag never goes back to true: it is false after the lines whenever it
    was false before them or a line among them gave a content chunk. *)
Theorem retryable_iff_nothing_sent (s : LLMStream) :
  (forall e,
     snd (_run s) = Raise e ->
     exists sent cause,
       _event_ch (fst (_run s)) = _event_ch s ++ sent
       /\ Forall (fun chunk => usage chunk = None /\ choices chunk <> []) sent
       /\ e = APIConnectionError (is_nil sent) cause)
  /\ (forall lines fr,
        retryable fr = false ->
        retryable (fst (iterate_content lines fr)) = false)
  /\ (forall before after fr,
        content_chunks before <> [] ->
        retryable (fst (iterate_content (before ++ after) fr)) = false).
Proof.
  split; [| split].
  - intros e He.
    pose proof (observable_run s) as H.
    destruct (response_of s) as [resp | e0].
    + destruct (Z.eqb (status resp) 200).
      * cbv zeta in H. destruct (content_end resp) as [| e1].
        -- destruct (py_add _ _) as [total | e1];
             apply observable_parts in H; destruct H as [Hch [_ [_ Hr]]];
             [congruence |].
           exists (content_chunks (content_lines resp)), e1.
           split; [assumption |].
           split; [apply content_chunks_no_usage | congruence].
        -- apply observable_parts in H. destruct H as [Hch [_ [_ Hr]]].
           exists (content_chunks (content_lines resp)), e1.
           split; [assumption |].
           split; [apply content_chunks_no_usage | congruence].
      * apply observable_parts in H. destruct H as [Hch [_ [_ Hr]]].
        rewrite He in Hr. injection Hr as ->.
        eexists [], _. rewrite app_nil_r.
        split; [assumption | split; [constructor | reflexivity]].
    + apply observable_parts in H. destruct H as [Hch [_ [_ Hr]]].
      rewrite He in Hr. injection Hr as ->.
      eexists [], _. rewrite app_nil_r.
      split; [assumption | split; [constructor | reflexivity]].
  - intros lines fr Hfr. rewrite iterate_content_lines. simpl.
    now rewrite run_lines_retryable, Hfr.
  - intros before after fr Hne. rewrite iterate_content_lines. simpl.
    rewrite run_lines_retryable.
    unfold content_chunks, events in *. rewrite !filter_map_app.
    destruct (filter_map content_chunk_of (filter_map event_of_line before));
      [contradiction |].
    simpl. apply andb_false_r.
Qed.

End RunClaims.

(** ** The claims on [LLM.chat] *)

Section ChatClaims.

Variable http : HttpRequest -> result ClientResponse.

Lemma find_user_none (ctx : list ChatMessage) :
  Forall (fun m => msg_role m <> "user") ctx ->
  find (fun msg => String.eqb (msg_role msg) "user") ctx = None.
Proof.
  induction 1 as [| m ctx Hm _ IH]; [reflexivity |].
  simpl. apply String.eqb_neq in Hm. now rewrite Hm.
Qed.

Lemma find_last_user (before after : list ChatMessage) (m : ChatMessage) :
  msg_role m = "user" ->
  Forall (fun m' => msg_role m' <> "user") after ->
  find (fun msg => String.eqb (msg_role msg) "user")
       (rev (before ++ m :: after)) = Some m.
Proof.
  intros Hm Hafter.
  rewrite rev_app_distr. simpl. rewrite <- app_assoc. simpl.
  assert (Hrev : Forall (fun m' => msg_role m' <> "user") (rev after))
    by (apply Forall_forall; intros x Hx; apply in_rev in Hx;
        revert x Hx; now apply Forall_forall).
  induction Hrev as [| x l Hx _ IH]; simpl.
  - apply String.eqb_eq in Hm. now rewrite Hm.
  - apply String.eqb_neq in Hx. now rewrite Hx.
Qed.

Lemma chat_with_user (ctx : list ChatMessage) (t : option spec_float)
    (c : Client) (m : ChatMessage) :
  find (fun msg => String.eqb (msg_role msg) "user") (rev ctx) = Some m ->
  exists c' session,
    chat http ctx t c
    = (c', Ok (LLMStream__init__ (http (request_for (_opts (this c)) m t))))
    /\ posted c' = posted c ++ [(session, request_for (_opts (this c)) m t)]
    /\ (forall s, _session (this c) = Some s ->
                  session = s /\ sessions_created c' = sessions_created c)
    /\ _session (this c') = Some session.
Proof.
  intros Hfind. unfold chat. run_monad. rewrite Hfind.
  destruct (_session (this c)) as [s |] eqn:Hs; simpl.
  - eexists. exists s. split; [reflexivity |]. simpl.
    split; [reflexivity |]. split; [| assumption].
    intros s0 Hs0. split; [congruence | reflexivity].
  - eexists. eexists. split; [reflexivity |]. simpl.
    split; [reflexivity |]. split; [discriminate | reflexivity].
Qed.

(** C4.  For a context with no message of role user, [chat] raises
    (ValueError, the configuration error of the adapter) and leaves the
    adapter and the network as they were: no session is created, nothing
    is posted.  For a context with a user message, the call returns and
    posts one request, whose query is the content of the last message of
    role user. *)
Theorem chat_needs_user_message (ctx : list ChatMessage)
    (t : option spec_float) (c : Client) :
  (Forall (fun m => msg_role m <> "user") ctx ->
   chat http ctx t c
   = (c, Raise (ValueError "No user message found in chat context")))
  /\ (forall before m after,
        ctx = before ++ m :: after ->
        msg_role m = "user" ->
        Forall (fun m' => msg_role m' <> "user") after ->
        exists c' stream session req payload,
          chat http ctx t c = (c', Ok stream)
          /\ posted c' = posted c ++ [(session, req)]
          /\ json_body req = JDict payload
          /\ assoc "query" payload = Some (msg_content m)).
Proof.
  split.
  - intros Hnone. unfold chat. run_monad.
    rewrite find_user_none; [reflexivity |].
    apply Forall_forall. intros x Hx. apply in_rev in Hx.
    revert x Hx. now apply Forall_forall.
  - intros before m after -> Hm Hafter.
    destruct (chat_with_user (before ++ m :: after) t c m
                (find_last_user before after m Hm Hafter))
      as [c' [session [Hchat [Hposted _]]]].
    exists c', (LLMStream__init__ (http (request_for (_opts (this c)) m t))),
      session, (request_for (_opts (this c)) m t).
    eexists. repeat split; try eassumption; try reflexivity.
    unfold payload_of.
    destruct (match t with None => _ | Some _ => t end); reflexivity.
Qed.

(** C8.  For a call that finds a user message, the request posted carries
    the temperature given to the call when there is one, else the
    temperature of the instance when there is one, else no temperature
    key at all. *)
Theorem temperature_resolution (ctx : list ChatMessage)
    (t : option spec_float) (c : Client) :
  Exists (fun m => msg_role m = "user") ctx ->
  exists c' stream session req payload,
    chat http ctx t c = (c', Ok stream)
    /\ posted c' = posted c ++ [(session, req)]
    /\ json_body req = JDict payload
    /\ assoc "temperature" payload
       = match t with
         | Some x => Some (JFloat x)
         | None =>
             match LLMOptions.temperature (_opts (this c)) with
             | Some x => Some (JFloat x)
             | None => None
             end
         end.
Proof.
  intros Hex.
  destruct (find (fun msg => String.eqb (msg_role msg) "user") (rev ctx))
    as [m |] eqn:Hfind.
  - destruct (chat_with_user ctx t c m Hfind)
      as [c' [session [Hchat [Hposted _]]]].
    exists c', (LLMStream__init__ (http (request_for (_opts (this c)) m t))),
      session, (request_for (_opts (this c)) m t).
    eexists. repeat split; try eassumption; try reflexivity.
    unfold payload_of.
    destruct t as [x |]; [reflexivity |].
    destruct (LLMOptions.temperature (_opts (this c))); reflexivity.
  - exfalso. apply Exists_exists in Hex. destruct Hex as [m [Hin Hm]].
    apply in_rev in Hin.
    pose proof (find_none _ _ Hfind m Hin) as Hno. simpl in Hno.
    apply String.eqb_neq in Hno. contradiction.
Qed.

End ChatClaims.

(** ** The claims on concrete streams *)

Module Witnesses.

Import Examples.

(** Usage (10, 5) then (20, 8), two content chunks among them: the final
    chunk reports 20, 8 and 28. *)
Lemma final_usage_chunk_witness :
  snd (_run (rt := CPython.runtime) (fresh two_usages)) = Ok tt
  /\ _event_ch (fst (_run (rt := CPython.runtime) (fresh two_usages)))
     = [ hi_chunk; hi_chunk; usage_chunk "" (JInt 20) (JInt 8) (JInt 28) ].
Proof.
  destruct (final_usage_chunk (rt := CPython.runtime) two_usages)
    as [p [c [Hl [H1 [H2 _]]]]];
    [reflexivity | reflexivity | vm_compute; reflexivity |].
  vm_compute in Hl. injection Hl as <- <-.
  split; [exact H1 | exact H2].
Defined.

(** Outside the valid streams: a usage with a null count.  The body ends
    without an error of the transport, the sum of the counters raises
    TypeError, and the call ends with a connection error and without a
    final chunk. *)
Lemma null_count_fails_the_sum :
  observable (_run (rt := CPython.runtime) (fresh (ok_response [usage_null])))
  = ([], (JNull, JInt 5), "", Raise (APIConnectionError true TypeError)).
Proof. vm_compute. reflexivity. Qed.

(** The response 401 with the body of a bad key: the caller gets a
    connection error, the status error is its cause. *)
Lemma status_error_is_wrapped_witness :
  snd (_run (rt := CPython.runtime) (fresh bad_key_response))
  = Raise (APIConnectionError true
             (APIStatusError ("Dify API error: " ++ bad_key_body) 401
                             bad_key_body))
  /\ _event_ch (fst (_run (rt := CPython.runtime) (fresh bad_key_response)))
     = [].
Proof.
  apply (status_error_is_wrapped (rt := CPython.runtime)
           (fresh bad_key_response) bad_key_response bad_key_body);
    [reflexivity | discriminate | reflexivity].
Defined.

(** A stream whose only event has the message id m1: the content chunk
    carries m1, the final chunk the empty str. *)
Lemma final_chunk_request_id_witness :
  _event_ch (fst (_run (rt := CPython.runtime) (fresh (ok_response [hi_line]))))
  = [ hi_chunk; usage_chunk "" (JInt 0) (JInt 0) (JInt 0) ]
  /\ exists content fin,
       _event_ch (fst (_run (rt := CPython.runtime)
                         (fresh (ok_response [hi_line]))))
       = [] ++ content ++ [fin]
       /\ request_id fin = JStr ""
       /\ _request_id (fst (_run (rt := CPython.runtime)
                              (fresh (ok_response [hi_line])))) = "".
Proof.
  split; [vm_compute; reflexivity |].
  apply (final_chunk_request_id (rt := CPython.runtime)
           (fresh (ok_response [hi_line]))).
  vm_compute. reflexivity.
Defined.

Lemma not_json_malformed : malformed (rt := CPython.runtime) not_json.
Proof.
  unfold malformed.
  change (bytes_decode not_json) with (CPython.decode not_json).
  assert (E : CPython.decode not_json = Ok (string_of_list_byte not_json))
    by (vm_compute; reflexivity).
  rewrite E. right. exists JSONDecodeError. vm_compute. reflexivity.
Defined.

(** A line cut in the middle of its JSON, between a content line and a
    usage line. *)
Lemma malformed_line_is_skipped_witness :
  observable (_run (rt := CPython.runtime)
                (LLMStream__init__
                   (Ok {| status := 200; text := Ok EmptyString;
                          content_lines := [hi_line] ++ not_json :: [usage_10_5];
                          content_end := EndOfBody |})))
  = observable (_run (rt := CPython.runtime)
                  (LLMStream__init__
                     (Ok {| status := 200; text := Ok EmptyString;
                            content_lines := [hi_line] ++ [usage_10_5];
                            content_end := EndOfBody |}))).
Proof.
  destruct (malformed_line_is_skipped (rt := CPython.runtime) not_json
              not_json_malformed) as [_ H].
  apply H.
Defined.

(** The transport fails after one content chunk: not retryable. *)
Lemma retryable_iff_nothing_sent_witness :
  exists sent cause,
    _event_ch (fst (_run (rt := CPython.runtime) (fresh broken_after_chunk)))
    = [] ++ sent
    /\ Forall (fun chunk => usage chunk = None /\ choices chunk <> []) sent
    /\ APIConnectionError false ClientError
       = APIConnectionError (is_nil sent) cause.
Proof.
  destruct (retryable_iff_nothing_sent (rt := CPython.runtime)
              (fresh broken_after_chunk)) as [H _].
  apply (H (APIConnectionError false ClientError)).
  vm_compute. reflexivity.
Defined.

(** The line of the specification:
    data: {"event":"agent_message","answer":"Hi","message_id":"m1"}. *)
Lemma agent_message_chunk_witness :
  event_of_line (rt := CPython.runtime) hi_line = Some (JDict hi_event)
  /\ _parse_event (JDict hi_event) (fresh (ok_response []))
     = (fresh (ok_response []),
        Ok (Some {| request_id := JStr "m1";
                    choices := [ {| delta := {| role := "assistant";
                                                content := JStr "Hi" |} |} ];
                    usage := None |})).
Proof.
  split; [vm_compute; reflexivity |].
  destruct (agent_message_chunk hi_event (fresh (ok_response [])))
    as [H _].
  destruct (H eq_refl) as [_ [_ H3]].
  apply (H3 "Hi" (JStr "m1")); [reflexivity | discriminate | reflexivity].
Defined.



Lemma parse_event_frame_witness :
  fst (_parse_event (JDict hi_event) counted_10_5) = counted_10_5.
Proof.
  destruct (parse_event_frame (JDict hi_event) counted_10_5)
    as [_ [H _]].
  apply (H hi_event); [reflexivity | discriminate].
Defined.

(** No user message: nothing changes.  Two user messages: the query is
    the later one. *)
Lemma chat_needs_user_message_witness :
  chat silent [system "be brief"; assistant "hello"] None (client None)
  = (client None, Raise (ValueError "No user message found in chat context"))
  /\ exists c' stream session req payload,
       chat silent [user "first"; assistant "hello"; user "second";
                    assistant "again"] None (client None)
       = (c', Ok stream)
       /\ posted c' = posted (client None) ++ [(session, req)]
       /\ json_body req = JDict payload
       /\ assoc "query" payload = Some (JStr "second").
Proof.
  split.
  - destruct (chat_needs_user_message silent
                [system "be brief"; assistant "hello"] None (client None))
      as [H _].
    apply H. repeat constructor; discriminate.
  - destruct (chat_needs_user_message silent
                [user "first"; assistant "hello"; user "second";
                 assistant "again"] None (client None)) as [_ H].
    apply (H [user "first"; assistant "hello"] (user "second")
             [assistant "again"]);
      [reflexivity | reflexivity | repeat constructor; discriminate].
Defined.

(** The instance has 0.5, the call gives 0.25: the payload carries 0.25. *)
Lemma temperature_resolution_witness :
  exists c' stream session req payload,
    chat silent [user "hello"] (Some quarter) (client (Some half))
    = (c', Ok stream)
    /\ posted c' = posted (client (Some half)) ++ [(session, req)]
    /\ json_body req = JDict payload
    /\ assoc "temperature" payload = Some (JFloat quarter).
Proof.
  apply (temperature_resolution silent [user "hello"] (Some quarter)
           (client (Some half))).
  constructor. reflexivity.
Defined.

End Witnesses.

(** * More of the adapter *)

(** ** [LLM.__init__] and [LLM.from_env] *)

(** X1.  The constructor raises exactly when no key reaches it: the key
    given is [None] or empty and the environment has no DIFY_API_KEY.  It
    then raises ValueError.  An empty key in the environment is accepted. *)
Theorem init_requires_key (env api_key api_base : option string)
    (temperature : option spec_float) (conversation_id : option string) :
  ((exists e, LLM__init__ env api_key api_base temperature conversation_id
              = Raise e)
   <-> str_truthy api_key = false /\ env = None)
  /\ (forall e, LLM__init__ env api_key api_base temperature conversation_id
                = Raise e ->
                e = ValueError "Dify API key is required").
Proof.
  unfold LLM__init__, str_or, str_truthy.
  destruct api_key as [k |]; [destruct (String.eqb k "") |];
    destruct env as [v |]; simpl; split; try split;
    try (intros [e H]; discriminate);
    try (intros [H1 H2]; discriminate);
    try (intros e H; discriminate);
    try (intros _; split; reflexivity);
    try (intros _; eexists; reflexivity);
    try (intros e H; now injection H as <-).
Qed.

(** X2.  An adapter the constructor returns holds no session; its key is
    the key given when that is not empty, else the key of the
    environment; its base URL is the one given when that is not empty,
    else https://api.dify.ai, and so is never empty; temperature and
    conversation id are kept as given. *)
Theorem init_options (env api_key api_base : option string)
    (temperature : option spec_float) (conversation_id : option string)
    (llm : LLM) :
  LLM__init__ env api_key api_base temperature conversation_id = Ok llm ->
  _session llm = None
  /\ (forall k, api_key = Some k -> k <> "" ->
                LLMOptions.api_key (_opts llm) = k)
  /\ (str_truthy api_key = false ->
      env = Some (LLMOptions.api_key (_opts llm)))
  /\ LLMOptions.api_base (_opts llm) <> ""
  /\ (forall b, api_base = Some b -> b <> "" ->
                LLMOptions.api_base (_opts llm) = b)
  /\ (str_truthy api_base = false ->
      LLMOptions.api_base (_opts llm) = "https://api.dify.ai")
  /\ LLMOptions.temperature (_opts llm) = temperature
  /\ LLMOptions.conversation_id (_opts llm) = conversation_id.
Proof.
  unfold LLM__init__, str_or, str_truthy. intros H.
  destruct api_key as [k |]; [destruct (String.eqb k "") eqn:Ek |];
    (destruct env as [v |]; [| try discriminate]);
    injection H as <-; simpl;
    (destruct api_base as [b |]; [destruct (String.eqb b "") eqn:Eb |]);
    simpl; repeat split;
    try (intros k' Hk' Hne; injection Hk' as ->);
    try (intros b' Hb' Hne; injection Hb' as ->);
    try (apply String.eqb_eq in Ek; subst; contradiction);
    try (apply String.eqb_eq in Eb; subst; contradiction);
    try (apply String.eqb_neq in Eb; assumption);
    try discriminate; try reflexivity; try (intros; discriminate).
Qed.

(** X3.  [from_env] returns exactly when DIFY_API_KEY is set and not
    empty; otherwise it raises ValueError.  What it returns is what the
    constructor returns in the same environment for no key and the base
    URL DIFY_API_BASE: that key, the base URL of the environment or the
    default, no temperature, no conversation.  The constructor alone
    accepts an empty DIFY_API_KEY that [from_env] refuses. *)
Theorem from_env_result (environ : string -> option string) :
  ((exists llm, from_env environ = Ok llm)
   <-> str_truthy (environ "DIFY_API_KEY") = true)
  /\ (forall e, from_env environ = Raise e ->
        e = ValueError "DIFY_API_KEY environment variable is required")
  /\ (forall llm, from_env environ = Ok llm ->
        LLM__init__ (environ "DIFY_API_KEY") None (environ "DIFY_API_BASE")
                    None None = Ok llm
        /\ environ "DIFY_API_KEY" = Some (LLMOptions.api_key (_opts llm))
        /\ LLMOptions.temperature (_opts llm) = None
        /\ LLMOptions.conversation_id (_opts llm) = None)
  /\ (environ "DIFY_API_KEY" = Some "" ->
      (exists e, from_env environ = Raise e)
      /\ exists llm, LLM__init__ (environ "DIFY_API_KEY") None
                       (environ "DIFY_API_BASE") None None = Ok llm).
Proof.
  unfold from_env, LLM__init__, str_or, str_truthy.
  destruct (environ "DIFY_API_KEY") as [k |]; simpl.
  - destruct (String.eqb k "") eqn:Ek; simpl.
    + split; [| split; [| split]].
      * split; [intros [llm H] |]; discriminate.
      * intros e H. now injection H as <-.
      * intros llm H. discriminate.
      * intros _. split; eexists; reflexivity.
    + split; [| split; [| split]].
      * split; [reflexivity | intros _; eexists; reflexivity].
      * intros e H. discriminate.
      * intros llm H. injection H as <-. simpl.
        destruct (environ "DIFY_API_BASE") as [b |]; repeat split.
      * intros H. injection H as ->. discriminate.
  - split; [| split; [| split]].
    + split; [intros [llm H] |]; discriminate.
    + intros e H. now injection H as <-.
    + intros llm H. discriminate.
    + discriminate.
Qed.

(** ** [LLM.chat] and [LLM.close] *)

Section ChatMore.

Variable http : HttpRequest -> result ClientResponse.

(** X4.  Only the last user message is sent: a call with a context whose
    last user message is [m] does exactly what a call with [m] alone
    does, whatever stands before [m] or after it. *)
Theorem chat_sends_last_user_message_only (before after : list ChatMessage)
    (m : ChatMessage) (t : option spec_float) (c : Client) :
  msg_role m = "user" ->
  Forall (fun m' => msg_role m' <> "user") after ->
  chat http (before ++ m :: after) t c = chat http [m] t c.
Proof.
  intros Hm Hafter.
  pose proof (find_last_user before after m Hm Hafter) as H1.
  pose proof (find_last_user [] [] m Hm (Forall_nil _)) as H2.
  unfold chat. run_monad. simpl in H2. rewrite H1.
  apply String.eqb_eq in Hm. now rewrite Hm.
Qed.

(** X5.  A call that finds the user message [m] posts one request and
    returns a stream that awaits that very request and has sent nothing
    yet.  The request goes to the base URL followed by /v1/chat-messages,
    with the key as a bearer token and JSON as content type; its payload
    has empty inputs, the content of [m] as query, the streaming response
    mode, the user named user, and as conversation id the one of the
    options, or the empty str when the options have none. *)
Theorem chat_request_shape (ctx : list ChatMessage) (t : option spec_float)
    (c : Client) (m : ChatMessage) :
  find (fun msg => String.eqb (msg_role msg) "user") (rev ctx) = Some m ->
  exists session req payload,
    posted (fst (chat http ctx t c)) = posted c ++ [(session, req)]
    /\ snd (chat http ctx t c) = Ok (LLMStream__init__ (http req))
    /\ url req
       = (LLMOptions.api_base (_opts (this c)) ++ "/v1/chat-messages")%string
    /\ headers req
       = [ ("Authorization",
            ("Bearer " ++ LLMOptions.api_key (_opts (this c)))%string);
           ("Content-Type", "application/json") ]
    /\ json_body req = JDict payload
    /\ assoc "inputs" payload = Some (JDict [])
    /\ assoc "query" payload = Some (msg_content m)
    /\ assoc "response_mode" payload = Some (JStr "streaming")
    /\ assoc "user" payload = Some (JStr "user")
    /\ (forall id, LLMOptions.conversation_id (_opts (this c)) = Some id ->
                   assoc "conversation_id" payload = Some (JStr id))
    /\ (LLMOptions.conversation_id (_opts (this c)) = None ->
        assoc "conversation_id" payload = Some (JStr ""))
    /\ _opts (this (fst (chat http ctx t c))) = _opts (this c).
Proof.
  intros Hfind.
  destruct (chat_with_user http ctx t c m Hfind)
    as [c' [session [Hchat [Hposted [_ Hheld]]]]].
  exists session, (request_for (_opts (this c)) m t).
  eexists. rewrite Hchat. simpl.
  split; [assumption |]. split; [reflexivity |].
  split; [reflexivity |]. split; [reflexivity |]. split; [reflexivity |].
  unfold payload_of.
  assert (Hopts : _opts (this c') = _opts (this c)).
  { unfold chat in Hchat. revert Hchat. run_monad. rewrite Hfind.
    destruct (_session (this c)); simpl; intros H; now injection H as <-. }
  destruct (match t with None => _ | Some _ => t end);
    repeat split; try assumption;
    try (intros id Hid; rewrite Hid; simpl;
         destruct (String.eqb id "") eqn:E; [| reflexivity];
         apply String.eqb_eq in E; now subst);
    try (intros Hnone; now rewrite Hnone).
Qed.

End ChatMore.

Section LifecycleFacts.

Variable http : HttpRequest -> result ClientResponse.
Variable session_close : ClientSession -> result unit.

(** A call of [chat] either leaves the adapter as it was, or posts one
    request, on the session held or on a new one that it then holds. *)
Lemma chat_client (ctx : list ChatMessage) (t : option spec_float)
    (c : Client) :
  fst (chat http ctx t c) = c
  \/ exists session req,
       posted (fst (chat http ctx t c)) = posted c ++ [(session, req)]
       /\ _session (this (fst (chat http ctx t c))) = Some session
       /\ ((_session (this c) = Some session
            /\ sessions_created (fst (chat http ctx t c))
               = sessions_created c)
           \/ (_session (this c) = None
               /\ session = sessions_created c
               /\ sessions_created (fst (chat http ctx t c))
                  = S (sessions_created c))).
Proof.
  unfold chat. run_monad.
  destruct (find _ (rev ctx)) as [m |]; [right | now left].
  destruct (_session (this c)) as [s |] eqn:Hs; simpl.
  - exists s. eexists. rewrite Hs. repeat split. now left.
  - eexists. eexists. repeat split. right. repeat split.
Qed.

Lemma close_cases (p : Process) :
  match _session (this (adapter p)) with
  | None => close session_close p = (p, Ok tt)
  | Some s =>
      match session_close s with
      | Raise e => close session_close p = (p, Raise e)
      | Ok _ =>
          snd (close session_close p) = Ok tt
          /\ closed (fst (close session_close p)) = closed p ++ [s]
          /\ _session (this (adapter (fst (close session_close p)))) = None
          /\ _opts (this (adapter (fst (close session_close p))))
             = _opts (this (adapter p))
          /\ sessions_created (adapter (fst (close session_close p)))
             = sessions_created (adapter p)
          /\ posted (adapter (fst (close session_close p)))
             = posted (adapter p)
      end
  end.
Proof.
  unfold close, record_closed, clear_session. run_monad.
  destruct (_session (this (adapter p))) as [s |]; [| reflexivity].
  destruct (session_close s) as [u | e]; simpl; [| reflexivity].
  repeat split.
Qed.

(** X6.  Calls of [chat] share one session: over any number of calls, at
    most one session is created, none when the adapter held one already,
    no session is closed, and every request of these calls goes out on
    the session the adapter holds at the end. *)
Theorem chats_share_one_session (calls : list call) (p : Process) :
  forallb is_chat calls = true ->
  closed (do_calls http session_close calls p) = closed p
  /\ sessions_created (adapter (do_calls http session_close calls p))
     <= S (sessions_created (adapter p))
  /\ (forall s, _session (this (adapter p)) = Some s ->
        sessions_created (adapter (do_calls http session_close calls p))
        = sessions_created (adapter p)
        /\ _session (this (adapter (do_calls http session_close calls p)))
           = Some s)
  /\ exists new,
       posted (adapter (do_calls http session_close calls p))
       = posted (adapter p) ++ new
       /\ Forall (fun sr =>
                    _session (this (adapter (do_calls http session_close
                                              calls p)))
                    = Some (fst sr)) new.
Proof.
  revert p. induction calls as [| c calls IH]; intros p Hall.
  - simpl. split; [reflexivity |]. split; [lia |].
    split; [intros s Hs; now split |].
    exists []. now rewrite app_nil_r.
  - simpl in Hall. apply andb_true_iff in Hall. destruct Hall as [Hc Hall].
    destruct c as [ctx t |]; [| discriminate].
    unfold do_calls in *. simpl.
    set (p1 := fst (on_client (chat http ctx t) p)).
    destruct (IH p1 Hall) as [Hcl [Hle [Hheld [new [Hnew Hall']]]]].
    assert (Hp1 : adapter p1 = fst (chat http ctx t (adapter p))
                  /\ closed p1 = closed p).
    { unfold p1, on_client.
      destruct (chat http ctx t (adapter p)); split; reflexivity. }
    destruct Hp1 as [Hc1 Hcl1].
    destruct (chat_client ctx t (adapter p)) as [Hsame | Hpost].
    + rewrite <- Hc1 in Hsame. rewrite Hsame in *.
      split; [congruence |]. split; [assumption |].
      split; [assumption |].
      exists new. split; assumption.
    + destruct Hpost as [session [req [Hposted [Hsess Hor]]]].
      rewrite <- Hc1 in Hposted, Hsess, Hor.
      destruct (Hheld session Hsess) as [Hn Hs'].
      split; [congruence |].
      split; [destruct Hor as [[_ E] | [_ [_ E]]]; lia |].
      split.
      * intros s Hs. destruct Hor as [[E1 E2] | [E1 _]]; [| congruence].
        split; congruence.
      * exists ((session, req) :: new). split.
        -- rewrite Hnew, Hposted, <- app_assoc. reflexivity.
        -- constructor; assumption.
Qed.

(** X7.  [close] releases the session the adapter holds, and only that:
    without a session it does nothing and returns; with one whose
    [close()] completes it records the close and forgets the session,
    touching neither the options nor the requests; when [close()] raises,
    the exception leaves the call and the session stays held.  A second
    [close] leaves the adapter as the first left it. *)
Theorem close_releases_session (p : Process) :
  (_session (this (adapter p)) = None ->
   close session_close p = (p, Ok tt))
  /\ (forall s, _session (this (adapter p)) = Some s ->
        session_close s = Ok tt ->
        snd (close session_close p) = Ok tt
        /\ closed (fst (close session_close p)) = closed p ++ [s]
        /\ _session (this (adapter (fst (close session_close p)))) = None
        /\ _opts (this (adapter (fst (close session_close p))))
           = _opts (this (adapter p))
        /\ posted (adapter (fst (close session_close p)))
           = posted (adapter p))
  /\ (forall s e, _session (this (adapter p)) = Some s ->
        session_close s = Raise e ->
        close session_close p = (p, Raise e))
  /\ fst (close session_close (fst (close session_close p)))
     = fst (close session_close p).
Proof.
  pose proof (close_cases p) as H.
  split; [| split; [| split]].
  - intros Hn. now rewrite Hn in H.
  - intros s Hs Hok. rewrite Hs, Hok in H.
    destruct H as [H1 [H2 [H3 [H4 [_ H5]]]]]. repeat split; assumption.
  - intros s e Hs He. now rewrite Hs, He in H.
  - destruct (_session (this (adapter p))) as [s |] eqn:Hs.
    + destruct (session_close s) as [u | e] eqn:Hc.
      * destruct H as [_ [_ [H3 _]]].
        pose proof (close_cases (fst (close session_close p))) as H'.
        rewrite H3 in H'. now rewrite H'.
      * rewrite H. simpl. now rewrite H.
    + rewrite H. simpl. now rewrite H.
Qed.

Lemma disciplined_start (llm : LLM) :
  _session llm = None -> disciplined (start llm).
Proof.
  intros Hn. constructor; simpl.
  - now rewrite Hn.
  - constructor.
  - intros s [].
  - intros s Hs. congruence.
  - intros s req [].
Qed.

Lemma disciplined_do_call (c : call) (p : Process) :
  disciplined p -> disciplined (do_call http session_close c p).
Proof.
  intros [Hleak Honce Hcl Hheld Hposted].
  destruct c as [ctx t |]; simpl.
  - set (p1 := fst (on_client (chat http ctx t) p)).
    assert (Hp1 : adapter p1 = fst (chat http ctx t (adapter p))
                  /\ closed p1 = closed p).
    { unfold p1, on_client.
      destruct (chat http ctx t (adapter p)); split; reflexivity. }
    destruct Hp1 as [Hc1 Hcl1].
    destruct (chat_client ctx t (adapter p)) as [Hsame | Hpost].
    + rewrite <- Hc1 in Hsame.
      constructor; rewrite ?Hsame, ?Hcl1; assumption.
    + destruct Hpost as [session [req [Hpo [Hsess Hor]]]].
      rewrite <- Hc1 in Hpo, Hsess, Hor.
      destruct Hor as [[Hs Hn] | [Hs [Hid Hn]]].
      * destruct (Hheld session Hs) as [Hlt Hnot].
        constructor; rewrite ?Hcl1, ?Hsess, ?Hn, ?Hpo.
        -- now rewrite Hs in Hleak.
        -- assumption.
        -- assumption.
        -- intros s E. injection E as <-. split; assumption.
        -- intros s r Hin. apply in_app_or in Hin.
           destruct Hin as [Hin | [E | []]]; [now apply (Hposted s r) |].
           now injection E as <- _.
      * constructor; rewrite ?Hcl1, ?Hsess, ?Hn, ?Hpo.
        -- rewrite Hs in Hleak. lia.
        -- assumption.
        -- intros s Hin. apply Hcl in Hin. lia.
        -- intros s E. injection E as <-. subst session. split; [lia |].
           intros Hin. apply Hcl in Hin. lia.
        -- intros s r Hin. apply in_app_or in Hin.
           destruct Hin as [Hin | [E | []]];
             [apply (Hposted s r) in Hin; lia |].
           injection E as <- _. lia.
  - pose proof (close_cases p) as H.
    destruct (_session (this (adapter p))) as [s |] eqn:Hs.
    + destruct (session_close s) as [u | e].
      * destruct H as [_ [H2 [H3 [_ [H5 H6]]]]].
        destruct (Hheld s eq_refl) as [Hlt Hnot].
        constructor; rewrite ?H2, ?H3, ?H5, ?H6.
        -- rewrite length_app. simpl. lia.
        -- apply NoDup_app; [assumption | repeat constructor; intros [] |].
           intros x Hx [E | []]. subst. contradiction.
        -- intros x Hin. apply in_app_or in Hin.
           destruct Hin as [Hin | [E | []]]; [now apply Hcl | now subst].
        -- discriminate.
        -- assumption.
      * rewrite H. simpl. constructor; rewrite ?Hs; assumption.
    + rewrite H. simpl. constructor; rewrite ?Hs; assumption.
Qed.

Lemma disciplined_do_calls (calls : list call) (p : Process) :
  disciplined p -> disciplined (do_calls http session_close calls p).
Proof.
  revert p. induction calls as [| c calls IH]; intros p Hp; [assumption |].
  unfold do_calls in *. simpl. apply IH. now apply disciplined_do_call.
Qed.

(** X8.  The discipline of sessions holds through any sequence of calls
    of [chat] and [close], from a new adapter on: every session created
    is either the one the adapter holds or one that was closed (so at most
    one is open at a time and none is lost), no session is closed twice,
    the session held was never closed, and every request went out on a
    session that was created. *)
Theorem sessions_are_disciplined (calls : list call) :
  (forall llm, _session llm = None ->
               disciplined (do_calls http session_close calls (start llm)))
  /\ (forall p, disciplined p ->
                disciplined (do_calls http session_close calls p)).
Proof.
  split.
  - intros llm Hn. apply disciplined_do_calls. now apply disciplined_start.
  - intros p. apply disciplined_do_calls.
Qed.

(** X9.  After any sequence of calls from a new adapter on, a call of
    [chat] that posts a request posts it on a session that is not closed;
    after a [close] that completed, that session is a new one. *)
Theorem chat_posts_on_open_session (calls : list call) (llm : LLM)
    (ctx : list ChatMessage) (t : option spec_float) :
  _session llm = None ->
  forall session req,
    posted (adapter (do_call http session_close (Chat ctx t)
                      (do_calls http session_close calls (start llm))))
    = posted (adapter (do_calls http session_close calls (start llm)))
      ++ [(session, req)] ->
    ~ In session
        (closed (do_call http session_close (Chat ctx t)
                   (do_calls http session_close calls (start llm))))
    /\ (_session (this (adapter (do_calls http session_close calls
                                  (start llm)))) = None ->
        session
        = sessions_created (adapter (do_calls http session_close calls
                                      (start llm)))).
Proof.
  intros Hn session req.
  pose proof (disciplined_do_calls calls (start llm)
                (disciplined_start llm Hn)) as Hd.
  set (p := do_calls http session_close calls (start llm)) in *.
  pose proof (disciplined_do_call (Chat ctx t) p Hd) as Hd'.
  simpl in *.
  set (p1 := fst (on_client (chat http ctx t) p)) in *.
  assert (Hp1 : adapter p1 = fst (chat http ctx t (adapter p))
                /\ closed p1 = closed p).
  { unfold p1, on_client.
    destruct (chat http ctx t (adapter p)); split; reflexivity. }
  destruct Hp1 as [Hc1 Hcl1].
  intros Hpo.
  destruct (chat_client ctx t (adapter p)) as [Hsame | Hpost].
  - rewrite <- Hc1 in Hsame. rewrite Hsame in Hpo.
    exfalso. apply (f_equal (@List.length _)) in Hpo.
    rewrite length_app in Hpo. simpl in Hpo. lia.
  - destruct Hpost as [s' [r' [Hpo' [Hsess Hor]]]].
    rewrite <- Hc1 in Hpo', Hsess, Hor.
    rewrite Hpo' in Hpo. apply app_inv_head in Hpo.
    injection Hpo as -> ->.
    split.
    + apply (held_live p1 Hd' session Hsess).
    + intros Hnone. destruct Hor as [[E _] | [_ [E _]]]; congruence.
Qed.

End LifecycleFacts.

(** ** [LLMStream._run] and [LLMStream._parse_event] *)



(** X19.  Processing an event a second time returns what the first time
    returned and leaves the stream as the first time left it: a
    message_end that comes twice counts once. *)
Theorem parse_event_twice (event : json) (s : LLMStream) :
  _parse_event event (fst (_parse_event event s))
  = (fst (_parse_event event s), snd (_parse_event event s)).
Proof.
  rewrite !_parse_event_effect.
  destruct (effect_of event); reflexivity.
Qed.

Section RunMore.

Context {rt : PyRuntime}.

(** X10.  A call of [_run] returns exactly when the response arrives, its
    status is 200, the body ends without an error of the transport, and
    the two counters, as the last usage left them, can be added.  Nothing
    else a line holds can make the call fail. *)
Theorem run_returns_iff (s : LLMStream) :
  snd (_run s) = Ok tt
  <-> exists resp total,
        response_of s = Ok resp
        /\ status resp = 200%Z
        /\ content_end resp = EndOfBody
        /\ py_add (fst (last (usages (content_lines resp)) (counters s)))
                  (snd (last (usages (content_lines resp)) (counters s)))
           = Ok total.
Proof.
  pose proof (observable_run s) as H.
  destruct (response_of s) as [resp | e].
  - destruct (Z.eqb (status resp) 200) eqn:Hst.
    + cbv zeta in H. destruct (content_end resp) as [| e] eqn:Hend.
      * destruct (py_add _ _) as [total | e] eqn:Hadd;
          apply observable_parts in H; destruct H as [_ [_ [_ Hr]]];
          rewrite Hr; split.
        -- intros _. exists resp, total. apply Z.eqb_eq in Hst.
           repeat split; assumption.
        -- reflexivity.
        -- discriminate.
        -- intros [resp' [total [E [_ [_ Hadd']]]]].
           injection E as <-. congruence.
      * apply observable_parts in H. destruct H as [_ [_ [_ Hr]]].
        rewrite Hr. split; [discriminate |].
        intros [resp' [total [E [_ [Hend' _]]]]].
        injection E as <-. congruence.
    + apply observable_parts in H. destruct H as [_ [_ [_ Hr]]].
      rewrite Hr. split; [discriminate |].
      intros [resp' [total [E [Hst' _]]]].
      injection E as <-. apply Z.eqb_neq in Hst. contradiction.
  - apply observable_parts in H. destruct H as [_ [_ [_ Hr]]].
    rewrite Hr. split; [discriminate |].
    intros [resp' [total [E _]]]. discriminate.
Qed.

(** X11.  No line stops the loop.  Whatever a line holds, its pass
    returns, keeps the request id, and does at most one thing: it sends
    one chunk, or logs one exception, or neither.  A pass that sends or
    logs leaves the counters as they were, and a pass that sends nothing
    leaves the retryable flag as it was. *)
Theorem every_line_passes (line : list byte) (fr : Frame) :
  snd (process_line line fr) = Ok tt
  /\ _request_id (self (fst (process_line line fr))) = _request_id (self fr)
  /\ exists sent logs,
       _event_ch (self (fst (process_line line fr)))
       = _event_ch (self fr) ++ sent
       /\ logged (self (fst (process_line line fr)))
          = logged (self fr) ++ logs
       /\ List.length sent + List.length logs <= 1
       /\ (List.length sent + List.length logs = 1 ->
           counters (self (fst (process_line line fr)))
           = counters (self fr))
       /\ (sent = [] ->
           retryable (fst (process_line line fr)) = retryable fr).
Proof.
  rewrite process_line_effect. simpl.
  destruct (line_effect_of line) as [| p c | chunk | e]; simpl;
    (split; [reflexivity |]); (split; [reflexivity |]).
  - exists [], []. rewrite !app_nil_r. simpl.
    repeat split; try reflexivity; lia.
  - exists [], []. rewrite !app_nil_r. simpl.
    repeat split; try reflexivity; lia.
  - exists [chunk], []. rewrite !app_nil_r. simpl.
    repeat split; try reflexivity; try lia. discriminate.
  - exists [], [e]. rewrite !app_nil_r. simpl.
    repeat split; try reflexivity; lia.
Qed.

Lemma run_lines_app (before after : list (list byte)) (fr : Frame) :
  run_lines (before ++ after) fr = run_lines after (run_lines before fr).
Proof. unfold run_lines. apply fold_left_app. Qed.

Lemma content_chunks_app (before after : list (list byte)) :
  content_chunks (before ++ after)
  = content_chunks before ++ content_chunks after.
Proof.
  unfold content_chunks, events. now rewrite !filter_map_app.
Qed.

(** X12.  What was delivered stays delivered.  The loop over a body is
    the loop over its first lines followed by the loop over the rest, and
    the chunks a stream sends when the transport fails after some lines
    are the first chunks of what it sends when the body goes on, in the
    same order. *)
Theorem delivered_chunks_are_a_prefix (before after : list (list byte)) :
  (forall fr,
     iterate_content (before ++ after) fr
     = iterate_content after (fst (iterate_content before fr)))
  /\ (forall st txt e ending,
        exists more,
          _event_ch
            (fst (_run (LLMStream__init__
                          (Ok {| status := st; text := txt;
                                 content_lines := before ++ after;
                                 content_end := ending |}))))
          = _event_ch
              (fst (_run (LLMStream__init__
                            (Ok {| status := st; text := txt;
                                   content_lines := before;
                                   content_end := ReadError e |}))))
            ++ more).
Proof.
  split.
  - intros fr. rewrite !iterate_content_lines. simpl.
    now rewrite run_lines_app.
  - intros st txt e ending.
    set (r1 := {| status := st; text := txt;
                  content_lines := before ++ after;
                  content_end := ending |}).
    set (r2 := {| status := st; text := txt; content_lines := before;
                  content_end := ReadError e |}).
    pose proof (observable_run (LLMStream__init__ (Ok r1))) as H1.
    pose proof (observable_run (LLMStream__init__ (Ok r2))) as H2.
    unfold response_of in H1, H2. simpl in H1, H2.
    destruct (Z.eqb st 200).
    + apply observable_parts in H2. destruct H2 as [H2 _]. rewrite H2.
      rewrite content_chunks_app in H1.
      destruct ending as [| e'].
      * destruct (py_add _ _) as [total | e'];
          apply observable_parts in H1; destruct H1 as [H1 _]; rewrite H1.
        -- eexists. rewrite <- app_assoc. reflexivity.
        -- eexists. reflexivity.
      * apply observable_parts in H1. destruct H1 as [H1 _]. rewrite H1.
        eexists. reflexivity.
    + apply observable_parts in H1. destruct H1 as [H1 _].
      apply observable_parts in H2. destruct H2 as [H2 _].
      rewrite H1, H2. exists []. reflexivity.
Qed.

(** X13.  When the request fails before a response arrives, the call
    raises a retryable connection error whose cause is the failure of the
    transport, and leaves the stream exactly as it was: nothing is sent,
    no response is held, so a later call awaits the request again. *)
Theorem failed_request_is_retryable (s : LLMStream) (e : exn) :
  response_of s = Raise e ->
  _run s = (s, Raise (APIConnectionError true e))
  /\ _dify_stream s = None.
Proof.
  intros H. rewrite _run_cases, H. split; [reflexivity |].
  unfold response_of in H. destruct (_dify_stream s); [discriminate |].
  reflexivity.
Qed.

Lemma no_event_no_chunk (lines : list (list byte)) :
  Forall (fun line => event_of_line line = None) lines ->
  events lines = [].
Proof.
  induction 1 as [| line lines Hl _ IH]; [reflexivity |].
  unfold events in *. simpl. now rewrite Hl.
Qed.

(** X14.  A body that carries no event (it is empty, or each of its lines
    is empty or malformed) yields exactly one chunk, the usage chunk with
    0 prompt tokens, 0 completion tokens and total 0, and the call
    returns. *)
Theorem empty_stream_reports_zero_usage (resp : ClientResponse) :
  status resp = 200%Z ->
  content_end resp = EndOfBody ->
  Forall (fun line => event_of_line line = None) (content_lines resp) ->
  observable (_run (LLMStream__init__ (Ok resp)))
  = ([usage_chunk "" (JInt 0) (JInt 0) (JInt 0)], (JInt 0, JInt 0), "",
     Ok tt).
Proof.
  intros Hst Hend Hnone.
  rewrite observable_run. unfold response_of. simpl.
  rewrite Hst, Hend. simpl.
  unfold content_chunks, usages. rewrite (no_event_no_chunk _ Hnone).
  reflexivity.
Qed.

Lemma filter_map_length {A B} (f : A -> option B) (l : list A) :
  List.length (filter_map f l) <= List.length l.
Proof.
  induction l as [| a l IH]; simpl; [lia |].
  destruct (f a); simpl; lia.
Qed.

(** X15.  A call sends at most one chunk for each line of the body, and
    one more at the end; it sends nothing when no response arrives. *)
Theorem chunks_are_bounded_by_lines (s : LLMStream) :
  List.length (_event_ch (fst (_run s)))
  <= List.length (_event_ch s)
     + match response_of s with
       | Ok resp => List.length (content_lines resp) + 1
       | Raise _ => 0
       end.
Proof.
  pose proof (observable_run s) as H.
  destruct (response_of s) as [resp | e].
  - assert (Hb : List.length (content_chunks (content_lines resp))
                 <= List.length (content_lines resp)).
    { unfold content_chunks, events.
      etransitivity; apply filter_map_length. }
    destruct (Z.eqb (status resp) 200).
    + cbv zeta in H. destruct (content_end resp) as [| e].
      * destruct (py_add _ _) as [total | e];
          apply observable_parts in H; destruct H as [H _]; rewrite H;
          rewrite ?length_app; simpl; lia.
      * apply observable_parts in H. destruct H as [H _]. rewrite H.
        rewrite length_app. lia.
    + apply observable_parts in H. destruct H as [H _]. rewrite H. lia.
  - apply observable_parts in H. destruct H as [H _]. rewrite H. lia.
Qed.

(** X16.  On a status other than 200 the body is not read: whatever its
    lines hold, the call sends nothing, logs nothing, keeps the counters,
    and raises a retryable connection error; when reading the text of the
    error fails too, the cause is that failure. *)
Theorem error_status_reads_no_line (s : LLMStream) (resp : ClientResponse) :
  response_of s = Ok resp ->
  status resp <> 200%Z ->
  fst (_run s) = opened resp s
  /\ _event_ch (fst (_run s)) = _event_ch s
  /\ logged (fst (_run s)) = logged s
  /\ counters (fst (_run s)) = counters s
  /\ (exists cause, snd (_run s) = Raise (APIConnectionError true cause))
  /\ (forall e, text resp = Raise e ->
                snd (_run s) = Raise (APIConnectionError true e)).
Proof.
  intros Hresp Hst. apply Z.eqb_neq in Hst.
  rewrite _run_cases, Hresp, Hst.
  assert (Hl : logged (opened resp s) = logged s)
    by (unfold opened; now destruct (_dify_stream s)).
  destruct (text resp) as [body | e]; simpl;
    rewrite opened_event_ch, opened_counters, Hl;
    repeat split; try (eexists; reflexivity);
    intros e' E; try discriminate; now injection E as <-.
Qed.

(** X17.  A line whose JSON is not an object (a list, a number, a str,
    null) is a line that fails: [_parse_event] raises AttributeError on
    it, the loop logs that and goes on, and nothing else changes. *)
Theorem non_object_event_is_logged (line : list byte) (event : json)
    (fr : Frame) :
  event_of_line line = Some event ->
  (forall d, event <> JDict d) ->
  (forall s, _parse_event event s = (s, Raise AttributeError))
  /\ process_line line fr
     = ({| self := logger_error AttributeError (self fr);
           retryable := retryable fr |}, Ok tt).
Proof.
  intros Hev Hno.
  assert (E : effect_of event = Fails AttributeError).
  { destruct event; try reflexivity. exfalso. now apply (Hno entries). }
  split.
  - intros s. now rewrite _parse_event_effect, E.
  - rewrite process_line_effect.
    pose proof (line_effect_event line) as H. rewrite Hev in H.
    now rewrite H, E.
Qed.

End RunMore.

(** ** The same, on concrete adapters and streams *)

Module MoreWitnesses.

Import Examples MoreExamples.

(** An empty key and no variable in the environment. *)
Lemma init_requires_key_witness :
  LLM__init__ None (Some "") None None None
  = Raise (ValueError "Dify API key is required").
Proof.
  destruct (init_requires_key None (Some "") None None None) as [[_ H] He].
  destruct (H (conj eq_refl eq_refl)) as [e E].
  rewrite E. f_equal. now apply He.
Defined.

(** The key of the environment, an empty base URL. *)
Lemma init_options_witness :
  LLMOptions.api_base
    (_opts {| _opts := {| LLMOptions.api_key := "secret";
                          LLMOptions.api_base := "https://api.dify.ai";
                          LLMOptions.temperature := None;
                          LLMOptions.conversation_id := None |};
              _session := None |})
  = "https://api.dify.ai"
  /\ Some "secret" = Some "secret".
Proof.
  destruct (init_options (Some "secret") None (Some "") None None _ eq_refl)
    as [_ [_ [Hk [_ [_ [Hb _]]]]]].
  split; [exact (Hb eq_refl) | exact (Hk eq_refl)].
Defined.

Lemma from_env_result_witness :
  exists llm, from_env env_key_only = Ok llm.
Proof.
  destruct (from_env_result env_key_only) as [[_ H] _].
  apply H. reflexivity.
Defined.

Lemma chat_sends_last_user_message_only_witness :
  chat silent [user "first"; assistant "hello"; user "second";
               assistant "again"] None (client None)
  = chat silent [user "second"] None (client None).
Proof.
  apply (chat_sends_last_user_message_only silent
           [user "first"; assistant "hello"] [assistant "again"]
           (user "second") None (client None));
    [reflexivity | repeat constructor; discriminate].
Defined.

Lemma chat_request_shape_witness :
  exists session req payload,
    posted (fst (chat silent [user "hello"] None (client None)))
    = posted (client None) ++ [(session, req)]
    /\ snd (chat silent [user "hello"] None (client None))
       = Ok (LLMStream__init__ (silent req))
    /\ url req = "https://api.dify.ai/v1/chat-messages"
    /\ headers req
       = [ ("Authorization", "Bearer key");
           ("Content-Type", "application/json") ]
    /\ json_body req = JDict payload
    /\ assoc "query" payload = Some (JStr "hello")
    /\ assoc "conversation_id" payload = Some (JStr "").
Proof.
  destruct (chat_request_shape silent [user "hello"] None (client None)
              (user "hello") eq_refl)
    as [session [req [payload
         [H1 [H2 [H3 [H4 [H5 [_ [H7 [_ [_ [_ [H11 _]]]]]]]]]]]]]].
  exists session, req, payload.
  repeat split; try assumption. now apply H11.
Defined.

(** Three calls of [chat] on a new adapter. *)
Lemma chats_share_one_session_witness :
  sessions_created
    (adapter (do_calls silent closes
               [Chat [user "a"] None; Chat [assistant "b"] None;
                Chat [user "c"] (Some half)]
               (start (llm_of None))))
  <= 1.
Proof.
  destruct (chats_share_one_session silent closes
              [Chat [user "a"] None; Chat [assistant "b"] None;
               Chat [user "c"] (Some half)]
              (start (llm_of None)) eq_refl) as [_ [H _]].
  exact H.
Defined.

(** [close] after one call of [chat]. *)
Lemma close_releases_session_witness :
  closed (fst (close closes
                 (do_call silent closes (Chat [user "a"] None)
                    (start (llm_of None)))))
  = [] ++ [0].
Proof.
  destruct (close_releases_session closes
              (do_call silent closes (Chat [user "a"] None)
                 (start (llm_of None)))) as [_ [H _]].
  destruct (H 0 eq_refl eq_refl) as [_ [H2 _]].
  exact H2.
Defined.

Lemma sessions_are_disciplined_witness :
  disciplined
    (do_calls silent closes
       [Chat [user "a"] None; Close; Close; Chat [user "b"] None;
        Chat [user "c"] None; Close]
       (start (llm_of None))).
Proof.
  destruct (sessions_are_disciplined silent closes
              [Chat [user "a"] None; Close; Close; Chat [user "b"] None;
               Chat [user "c"] None; Close]) as [H _].
  apply H. reflexivity.
Defined.

(** A call of [chat] after a [close]: the request goes out on the second
    session. *)
Lemma chat_posts_on_open_session_witness :
  ~ In 1 [0]
  /\ 1 = sessions_created
           (adapter (do_calls silent closes [Chat [user "a"] None; Close]
                      (start (llm_of None)))).
Proof.
  destruct (chat_posts_on_open_session silent closes
              [Chat [user "a"] None; Close] (llm_of None)
              [user "b"] None eq_refl 1
              (request_for (options None) (user "b") None) eq_refl)
    as [H1 H2].
  split; [exact H1 | exact (H2 eq_refl)].
Defined.

Lemma run_returns_iff_witness :
  snd (_run (rt := CPython.runtime) (fresh two_usages)) = Ok tt.
Proof.
  apply (run_returns_iff (rt := CPython.runtime) (fresh two_usages)).
  exists two_usages, (JInt 28).
  split; [reflexivity |]. split; [reflexivity |]. split; [reflexivity |].
  vm_compute. reflexivity.
Defined.

Lemma every_line_passes_witness :
  snd (process_line (rt := CPython.runtime) list_line
         {| self := fresh (ok_response []); retryable := true |})
  = Ok tt.
Proof.
  apply (every_line_passes (rt := CPython.runtime) list_line).
Defined.

Lemma delivered_chunks_are_a_prefix_witness :
  exists more,
    _event_ch
      (fst (_run (rt := CPython.runtime)
              (LLMStream__init__
                 (Ok {| status := 200; text := Ok EmptyString;
                        content_lines := [hi_line] ++ [usage_10_5; hi_line];
                        content_end := EndOfBody |}))))
    = _event_ch
        (fst (_run (rt := CPython.runtime)
                (LLMStream__init__
                   (Ok {| status := 200; text := Ok EmptyString;
                          content_lines := [hi_line];
                          content_end := ReadError TimeoutError |}))))
      ++ more.
Proof.
  destruct (delivered_chunks_are_a_prefix (rt := CPython.runtime)
              [hi_line] [usage_10_5; hi_line]) as [_ H].
  apply (H 200%Z (Ok EmptyString) TimeoutError EndOfBody).
Defined.

Lemma failed_request_is_retryable_witness :
  _run (rt := CPython.runtime) unreachable
  = (unreachable, Raise (APIConnectionError true ClientError)).
Proof.
  destruct (failed_request_is_retryable (rt := CPython.runtime)
              unreachable ClientError eq_refl) as [H _].
  exact H.
Defined.

(** A body of an empty line and a line that is not JSON. *)
Lemma empty_stream_reports_zero_usage_witness :
  observable (_run (rt := CPython.runtime)
                (LLMStream__init__ (Ok (ok_response [[]; not_json]))))
  = ([usage_chunk "" (JInt 0) (JInt 0) (JInt 0)], (JInt 0, JInt 0), "",
     Ok tt).
Proof.
  apply (empty_stream_reports_zero_usage (rt := CPython.runtime)
           (ok_response [[]; not_json]));
    [reflexivity | reflexivity |].
  constructor; [reflexivity |].
  constructor; [vm_compute; reflexivity | constructor].
Defined.

Lemma chunks_are_bounded_by_lines_witness :
  List.length (_event_ch (fst (_run (rt := CPython.runtime)
                                 (fresh two_usages))))
  <= 0 + (4 + 1).
Proof.
  apply (chunks_are_bounded_by_lines (rt := CPython.runtime)
           (fresh two_usages)).
Defined.

(** Status 500, a body with events, and a text that cannot be read. *)
Lemma error_status_reads_no_line_witness :
  _event_ch (fst (_run (rt := CPython.runtime) (fresh server_error))) = []
  /\ snd (_run (rt := CPython.runtime) (fresh server_error))
     = Raise (APIConnectionError true ClientError).
Proof.
  destruct (error_status_reads_no_line (rt := CPython.runtime)
              (fresh server_error) server_error eq_refl)
    as [_ [H2 [_ [_ [_ H6]]]]]; [discriminate |].
  split; [exact H2 | exact (H6 ClientError eq_refl)].
Defined.

(** The line [data: [1, 2]]. *)
Lemma non_object_event_is_logged_witness :
  process_line (rt := CPython.runtime) list_line
    {| self := fresh (ok_response []); retryable := true |}
  = ({| self := logger_error AttributeError (fresh (ok_response []));
        retryable := true |}, Ok tt).
Proof.
  destruct (non_object_event_is_logged (rt := CPython.runtime) list_line
              (JList [JInt 1; JInt 2])
              {| self := fresh (ok_response []); retryable := true |})
    as [_ H]; [vm_compute; reflexivity | discriminate | exact H].
Defined.


Lemma parse_event_twice_witness :
  _parse_event (JDict completion_only_event)
    (fst (_parse_event (JDict completion_only_event) counted_10_5))
  = (fst (_parse_event (JDict completion_only_event) counted_10_5),
     snd (_parse_event (JDict completion_only_event) counted_10_5)).
Proof.
  apply (parse_event_twice (JDict completion_only_event) counted_10_5).
Defined.

End MoreWitnesses.
